(** * WinCup mold analysis: a shallow embedding of [frames.py] and [wincup.py]

  The development follows the two source files.  Part I embeds the code:
  the setting widgets of [frames.py], then the calibration page and the
  difference page of [wincup.py].  Part II states and proves the
  properties of that code. *)

From Stdlib Require Import ZArith Lia Ascii.
From stdpp Require Import gmap strings list pretty.

Local Open Scope Z_scope.

(* ===================================================================== *)
(** * Part I: the code                                                    *)
(* ===================================================================== *)

(** ** Python outcomes

  A call either returns a value or raises.  Only the exceptions that the
  modelled paths can raise are listed. *)

Inductive exn : Type :=
  | NameError (name : string)          (* an unbound global is evaluated *)
  | IndexError                         (* [images[0]] on an empty list *)
  | FileNotFoundError (path : string)  (* [Image.open], [os.remove] *)
  | CvError                            (* [cv2.error]: bad or mismatching arrays *)
  | PiCameraError                      (* a capture that fails *)
  | GPIOPinInUse (pin : Z)             (* a device is built on a held pin *)
  | GPIODeviceClosed (pin : Z).        (* a closed device is driven *)

Inductive result (A : Type) : Type :=
  | Ok (a : A)
  | Raise (e : exn).
Arguments Ok {A} a.
Arguments Raise {A} e.

Definition is_ok {A} (r : result A) : bool :=
  match r with Ok _ => true | Raise _ => false end.

(* --------------------------------------------------------------------- *)
(** ** The patterns of the entry validators                               *)
(* --------------------------------------------------------------------- *)

(** The validators of [frames.py] call [p.match(value)] on patterns that
    are alternatives of the form [^ item ... item $], where an item is a
    character, a range of characters [[a-b]] or an optional character
    [c?].  This module gives that fragment of Python's [re] its meaning.
    Without [re.MULTILINE], [$] matches at the end of the string and also
    just before a newline that ends the string. *)

Module Re.

Inductive item : Type :=
  | Lit (c : ascii)
  | Range (lo hi : ascii)
  | Opt (c : ascii).

Definition in_range (lo hi c : ascii) : bool :=
  (nat_of_ascii lo <=? nat_of_ascii c)%nat && (nat_of_ascii c <=? nat_of_ascii hi)%nat.

Definition newline : ascii := "010"%char.

Definition at_end (s : string) : bool :=
  match s with
  | EmptyString => true
  | String c EmptyString => Ascii.eqb c newline
  | String _ (String _ _) => false
  end.

Fixpoint match_seq (p : list item) (s : string) : bool :=
  match p with
  | [] => at_end s
  | Lit c :: p' =>
      match s with
      | String d s' => Ascii.eqb c d && match_seq p' s'
      | EmptyString => false
      end
  | Range lo hi :: p' =>
      match s with
      | String d s' => in_range lo hi d && match_seq p' s'
      | EmptyString => false
      end
  | Opt c :: p' =>
      match s with
      | String d s' => (Ascii.eqb c d && match_seq p' s') || match_seq p' s
      | EmptyString => match_seq p' s
      end
  end.

(** [p.match(s)] is not [None]. *)
Definition matches (alternatives : list (list item)) (s : string) : bool :=
  existsb (λ p, match_seq p s) alternatives.

(** All the strings a pattern matches. *)
Definition chars_in (lo hi : ascii) : list ascii :=
  ascii_of_nat <$> seq (nat_of_ascii lo) (S (nat_of_ascii hi) - nat_of_ascii lo).

Fixpoint language_seq (p : list item) : list string :=
  match p with
  | [] => [EmptyString; String newline EmptyString]
  | Lit c :: p' => String c <$> language_seq p'
  | Range lo hi :: p' => c ← chars_in lo hi ; String c <$> language_seq p'
  | Opt c :: p' => (String c <$> language_seq p') ++ language_seq p'
  end.

Definition language (alternatives : list (list item)) : list string :=
  alternatives ≫= language_seq.

(** [s] is the decimal text of a number of the list, with or without a
    newline after it. *)
Definition is_decimal_of (numbers : list Z) (s : string) : bool :=
  existsb (λ n, String.eqb s (pretty n)
                || String.eqb s (pretty n +:+ String newline EmptyString)) numbers.

End Re.

(* --------------------------------------------------------------------- *)
(** ** frames.py                                                          *)
(* --------------------------------------------------------------------- *)

Module Frames.

Definition BRI_DELTA : Z := 5.
Definition CON_DELTA : Z := 10.
Definition SHA_DELTA : Z := 10.
Definition SHU_DELTA : Z := 100.
Definition SHU_MIN : Z := 1000.
Definition SHU_MAX : Z := 3000.

(** Each widget holds one integer, the Tk variable [self.value].  A
    button handler reads it ([int(self.value.get())]), computes [val]
    and stores it back with [self.value.set(val)].  The handlers below
    map the value read to the value stored. *)

Module BrightnessFrame.

Definition add (value : Z) : Z :=
  let val := value in
  if 100 - BRI_DELTA <=? val then 100
  else if (val <? 100 - BRI_DELTA) && (0 <=? val) then val + BRI_DELTA
  else 0.

Definition sub (value : Z) : Z :=
  let val := value in
  if 100 <? val then 100
  else if (val <=? 100) && (BRI_DELTA + 0 <=? val) then val - BRI_DELTA
  else 0.

(** [re.compile('^[0-9]$|^[1-9][0-9]$|^100$')] *)
Definition pattern : list (list Re.item) :=
  [ [Re.Range "0" "9"];
    [Re.Range "1" "9"; Re.Range "0" "9"];
    [Re.Lit "1"; Re.Lit "0"; Re.Lit "0"] ]%char.

Definition onValidate (value : string) : bool := Re.matches pattern value.

End BrightnessFrame.

Module ShutterSpeedFrame.

Definition add (value : Z) : Z :=
  let val := value in
  if SHU_MAX - SHU_DELTA <=? val then SHU_MAX
  else if (val <? SHU_MAX - SHU_DELTA) && (SHU_MIN <=? val) then val + SHU_DELTA
  else SHU_MIN.

(** The last branch of [sub] evaluates the name [vSHU_MIN], which is
    bound nowhere in the module: the handler raises before the entry
    or the variable is written. *)
Definition sub (value : Z) : result Z :=
  let val := value in
  if SHU_MAX <? val then Ok SHU_MAX
  else if (val <=? SHU_MAX) && (SHU_DELTA + SHU_MIN <=? val) then Ok (val - SHU_DELTA)
  else Raise (NameError "vSHU_MIN").

End ShutterSpeedFrame.

Module ContrastFrame.

Definition add (value : Z) : Z :=
  let val := value in
  if 100 - CON_DELTA <=? val then 100
  else if (val <? 100 - CON_DELTA) && (-100 <=? val) then val + CON_DELTA
  else 0.

Definition sub (value : Z) : Z :=
  let val := value in
  if 100 <? val then 100
  else if (val <=? 100) && (CON_DELTA - 100 <=? val) then val - CON_DELTA
  else -100.

(** [re.compile('^0$|^-?[1-9]$|^-?[1-9][0-9]$|^-?100$')] *)
Definition pattern : list (list Re.item) :=
  [ [Re.Lit "0"];
    [Re.Opt "-"; Re.Range "1" "9"];
    [Re.Opt "-"; Re.Range "1" "9"; Re.Range "0" "9"];
    [Re.Opt "-"; Re.Lit "1"; Re.Lit "0"; Re.Lit "0"] ]%char.

Definition onValidate (value : string) : bool := Re.matches pattern value.

End ContrastFrame.

Module SharpnessFrame.

Definition add (value : Z) : Z :=
  let val := value in
  if 100 - SHA_DELTA <=? val then 100
  else if (val <? 100 - SHA_DELTA) && (-100 <=? val) then val + SHA_DELTA
  else -100.

Definition sub (value : Z) : Z :=
  let val := value in
  if 100 <? val then 100
  else if (val <=? 100) && (SHA_DELTA - 100 <=? val) then val - SHA_DELTA
  else 0.

(** [re.compile('^0$|^-?[1-9]$|^-?[1-9][0-9]$|^-?100$')] *)
Definition pattern : list (list Re.item) :=
  [ [Re.Lit "0"];
    [Re.Opt "-"; Re.Range "1" "9"];
    [Re.Opt "-"; Re.Range "1" "9"; Re.Range "0" "9"];
    [Re.Opt "-"; Re.Lit "1"; Re.Lit "0"; Re.Lit "0"] ]%char.

Definition onValidate (value : string) : bool := Re.matches pattern value.

End SharpnessFrame.

End Frames.

(* --------------------------------------------------------------------- *)
(** ** wincup.py: effects                                                 *)
(* --------------------------------------------------------------------- *)

(** The handlers of [wincup.py] drive a camera, GPIO pins and the working
  directory.  They are embedded as state transformers over a world [W]
  that may raise: the world after a raise is the world the exception
  leaves behind. *)

Definition M (W A : Type) : Type := W → result A * W.

#[global] Instance M_ret {W} : MRet (M W) := λ A a w, (Ok a, w).

#[global] Instance M_bind {W} : MBind (M W) := λ A B k m w,
  match m w with
  | (Ok a, w') => k a w'
  | (Raise e, w') => (Raise e, w')
  end.

Definition raise {W A} (e : exn) : M W A := λ w, (Raise e, w).

Definition lift {W A} (r : result A) : M W A := λ w, (r, w).

Definition modify {W} (f : W → W) : M W unit := λ w, (Ok (), f w).

(** [with X() as x: body]: the exit action runs on every way out. *)
Definition with_ {W A} (enter : W → W) (exit : W → W) (body : M W A) : M W A :=
  λ w, let '(r, w') := body (enter w) in (r, exit w').

(** [for x in xs: body x] *)
Fixpoint for_each {W A} (xs : list A) (body : A → M W unit) : M W unit :=
  match xs with
  | [] => mret ()
  | x :: xs' => body x ;; for_each xs' body
  end.

(** What the program does to the hardware, in order. *)
Inductive hw_event : Type :=
  | CameraOpen                      (* [PiCamera()] *)
  | CameraConfigure                 (* [init_camera(camera)] *)
  | CameraCapture                   (* [camera.capture(...)] *)
  | CameraClose                     (* leaving [with PiCamera()] *)
  | PinOpen (pin : Z)               (* [gpio.LED(pin)], [gpio.Button(pin)] *)
  | PinWrite (pin : Z) (level : bool) (* [.on()], [.off()] *)
  | PinClose (pin : Z).             (* [.close()] *)

#[global] Instance hw_event_eq_dec : EqDecision hw_event.
Proof. solve_decision. Defined.

(* --------------------------------------------------------------------- *)
(** ** wincup.py: [CalibrationFrame]                                      *)
(* --------------------------------------------------------------------- *)

Module Calibration.

(** ['{:0>2}'.format(i)]: the decimal digits of [i], right-aligned in a
  field of the given width and filled on the left. *)
Fixpoint fill_left (n : nat) (fill : ascii) (s : string) : string :=
  match n with
  | O => s
  | S n' => String fill (fill_left n' fill s)
  end.

Definition rjust (width : nat) (fill : ascii) (s : string) : string :=
  fill_left (width - String.length s) fill s.

(** ['img{:0>2}.jpg'.format(i)] *)
Definition img_name (i : Z) : string :=
  "img" +:+ rjust 2 "0"%char (pretty i) +:+ ".jpg".

Section WithImages.

(** Decoded image files, and the reduction of lines 559-566 (the array of
  zeros, [avgImgArr + imgArr / N] for each image in turn, [numpy.round]
  and the cast to [uint8]).  That reduction is binary64 arithmetic; it is
  kept as a parameter of the file-level behaviour below. *)
Context {Img : Type}.
Variable average : list Img → Img.

(** The working directory, what the camera is about to deliver (one entry
  per capture, [None] for a capture that fails) and the hardware log. *)
Record world : Type := World {
  files : gmap string Img;
  sensor : list (option Img);
  hw : list hw_event
}.

Definition log (e : hw_event) : M world unit :=
  modify (λ w, World (files w) (sensor w) (hw w ++ [e])).

(** [camera.capture(fn, resize=(400, 250))] *)
Definition capture (fn : string) : M world unit :=
  λ w, let hw' := hw w ++ [CameraCapture] in
       match sensor w with
       | Some img :: rest => (Ok (), World (<[fn := img]> (files w)) rest hw')
       | None :: rest => (Raise PiCameraError, World (files w) rest hw')
       | [] => (Raise PiCameraError, World (files w) [] hw')
       end.

(** [Image.open(fn)] *)
Definition image_open (fn : string) : M world Img :=
  λ w, match files w !! fn with
       | Some img => (Ok img, w)
       | None => (Raise (FileNotFoundError fn), w)
       end.

(** [img.save(fn)] *)
Definition image_save (fn : string) (img : Img) : M world unit :=
  modify (λ w, World (<[fn := img]> (files w)) (sensor w) (hw w)).

(** [os.remove(fn)] *)
Definition os_remove (fn : string) : M world unit :=
  λ w, match files w !! fn with
       | Some _ => (Ok (), World (delete fn (files w)) (sensor w) (hw w))
       | None => (Raise (FileNotFoundError fn), w)
       end.

(** [with PiCamera() as camera: ...] *)
Definition with_PiCamera {A} (body : M world A) : M world A :=
  with_ (λ w, World (files w) (sensor w) (hw w ++ [CameraOpen]))
        (λ w, World (files w) (sensor w) (hw w ++ [CameraClose]))
        body.

Definition init_camera : M world unit := log CameraConfigure.

(** Lines 543-551: the capture loop, which also collects the file names. *)
Fixpoint capture_loop (range : list Z) (fns : list string) : M world (list string) :=
  match range with
  | [] => mret fns
  | i :: range' =>
      let fns := fns ++ [img_name i] in
      capture (img_name i) ;;
      _ ← image_open (img_name i) ;
      capture_loop range' fns
  end.

(** Lines 555-558 *)
Fixpoint open_all (fns : list string) (images : list Img) : M world (list Img) :=
  match fns with
  | [] => mret images
  | fn :: fns' => img ← image_open fn ; open_all fns' (images ++ [img])
  end.

(** [CalibrationFrame.calibrate_start], with [num_total] as argument. *)
Definition calibrate_start (num_total : Z) : M world unit :=
  with_PiCamera (
    init_camera ;;
    fns ← capture_loop (seqZ 1 num_total) [] ;
    images ← open_all fns [] ;
    (* [w, h = images[0].size] *)
    match images with
    | [] => raise IndexError
    | _ :: _ => mret ()
    end ;;
    let avgImg := average images in
    image_save "average.jpg" avgImg ;;
    _ ← image_open "average.jpg" ;
    for_each (seqZ 1 num_total) (λ i, os_remove (img_name i))).

End WithImages.

End Calibration.

(* --------------------------------------------------------------------- *)
(** ** wincup.py: [DifferenceFrame]                                       *)
(* --------------------------------------------------------------------- *)

Module Difference.

(** A single-channel 8-bit image, row by row. *)
Abbreviation GrayImg := (list (list Z)) (only parsing).

(** A contour: the points [(x, y)] that [cv2.findContours] reports for it. *)
Abbreviation Contour := (list (Z * Z)) (only parsing).

Definition pixel (img : GrayImg) (y x : nat) : option Z :=
  row ← img !! y ; row !! x.

(** [cv2.absdiff] on two 8-bit arrays: [|a - b|] element by element (no
  saturation can occur on 8-bit operands); arrays of different shapes, or
  a baseline that [cv2.imread] could not load, make it raise. *)
Definition absdiff_px (a b : Z) : Z := Z.abs (a - b).

Definition same_shape (a b : GrayImg) : bool :=
  bool_decide (length <$> a = length <$> b).

Definition absdiff (a : option GrayImg) (b : GrayImg) : result GrayImg :=
  match a with
  | Some a => if same_shape a b then Ok (zip_with (zip_with absdiff_px) a b)
              else Raise CvError
  | None => Raise CvError
  end.

(** [cv2.threshold(src, thresh, maxval, cv2.THRESH_BINARY)[1]] *)
Definition threshold_px (thresh maxval src : Z) : Z :=
  if thresh <? src then maxval else 0.

Definition threshold (src : GrayImg) (thresh maxval : Z) : GrayImg :=
  (λ row : list Z, threshold_px thresh maxval <$> row) <$> src.

(** 8-bit images: every sample is in [0, 255]. *)
Definition u8 (img : GrayImg) : Prop :=
  ∀ y x p, pixel img y x = Some p → 0 <= p <= 255.

(** Lines 668-669: the binary image that the contours are taken from. *)
Definition binarize (base_gray : option GrayImg) (image_gray : GrayImg) (sens : Z)
  : result GrayImg :=
  match absdiff base_gray image_gray with
  | Ok diff => Ok (threshold diff sens 255)
  | Raise e => Raise e
  end.

(** A foreground pixel of a binary image is a non-zero one. *)
Definition foreground (img : GrayImg) (y x : nat) : bool :=
  match pixel img y x with
  | Some p => bool_decide (p ≠ 0)
  | None => false
  end.

Definition count_foreground (img : GrayImg) : nat :=
  sum_list ((λ row, length (filter (λ p, p ≠ 0) row)) <$> img).

(** One call [cv2.rectangle(image, pt1, pt2, color, thickness)]. *)
Record draw : Type := Rectangle {
  pt1 : Z * Z;
  pt2 : Z * Z;
  color : Z * Z * Z;
  thickness : Z
}.

#[global] Instance draw_eq_dec : EqDecision draw.
Proof. solve_decision. Defined.

(** The test of line 675 and the rectangle of line 676, on a bounding
  rectangle [(x, y, w, h)]. *)
Definition passes (r : Z * Z * Z * Z) : bool :=
  let '(x, y, w, h) := r in (35 <? w) && (35 <? h).

Definition outline (r : Z * Z * Z * Z) : draw :=
  let '(x, y, w, h) := r in Rectangle (x, y) (x + w, y + h) (255, 0, 0) 2.

(** The GPIO pins the page uses. *)
Definition PIN_SWITCH : Z := 26.
Definition PIN_LED_R : Z := 5.
Definition PIN_LED_G : Z := 6.
Definition PIN_LED_FLASH : Z := 19.

(** A pin that a gpiozero device holds: an LED with its level, or the
  button with or without a [when_pressed] handler.  A pin no device
  holds is absent from the map: [close()] hands the pin back and the
  line is no longer driven. *)
Inductive device : Type :=
  | Led (lit : bool)
  | Button (bound : bool).

#[global] Instance device_eq_dec : EqDecision device.
Proof. solve_decision. Defined.

(** The pins, and every hardware event so far with the pins as it left
  them. *)
Record world : Type := World {
  pins : gmap Z device;
  hw : list (hw_event * gmap Z device)
}.

Definition lit (pin : Z) (ps : gmap Z device) : bool :=
  bool_decide (ps !! pin = Some (Led true)).

Definition alert (ps : gmap Z device) : bool := lit PIN_LED_R ps.
Definition ok (ps : gmap Z device) : bool := lit PIN_LED_G ps.
Definition flash (ps : gmap Z device) : bool := lit PIN_LED_FLASH ps.

Definition record (e : hw_event) (ps : gmap Z device) (w : world) : world :=
  World ps (hw w ++ [(e, ps)]).

(** An event that leaves the pins alone, and the three that change one. *)
Definition note (e : hw_event) (w : world) : world := record e (pins w) w.

Definition acquire (pin : Z) (d : device) (w : world) : world :=
  record (PinOpen pin) (<[pin := d]> (pins w)) w.

Definition set_led (pin : Z) (level : bool) (w : world) : world :=
  record (PinWrite pin level) (<[pin := Led level]> (pins w)) w.

Definition release (pin : Z) (w : world) : world :=
  record (PinClose pin) (delete pin (pins w)) w.

(** [gpio.LED(pin)], [gpio.Button(pin)] *)
Definition gpio_open (pin : Z) (d : device) : M world unit :=
  λ w, match pins w !! pin with
       | Some _ => (Raise (GPIOPinInUse pin), w)
       | None => (Ok (), acquire pin d w)
       end.

(** [switch.when_pressed = handler] *)
Definition set_handler (pin : Z) (w : world) : world :=
  World (<[pin := Button true]> (pins w)) (hw w).

Definition bind_when_pressed (pin : Z) : M world unit :=
  λ w, match pins w !! pin with
       | Some (Button _) => (Ok (), set_handler pin w)
       | _ => (Raise (GPIODeviceClosed pin), w)
       end.

(** [led.on()], [led.off()] *)
Definition led_write (pin : Z) (level : bool) : M world unit :=
  λ w, match pins w !! pin with
       | Some (Led _) => (Ok (), set_led pin level w)
       | _ => (Raise (GPIODeviceClosed pin), w)
       end.

Definition led_on (pin : Z) : M world unit := led_write pin true.
Definition led_off (pin : Z) : M world unit := led_write pin false.

(** [device.close()]; closing twice is allowed. *)
Definition gpio_close (pin : Z) : M world unit :=
  λ w, match pins w !! pin with
       | Some _ => (Ok (), release pin w)
       | None => (Ok (), w)
       end.

Definition camera_event (e : hw_event) : M world unit := modify (note e).

Definition with_PiCamera {A} (body : M world A) : M world A :=
  with_ (note CameraOpen) (note CameraClose) body.

(** The page holds its four devices and nothing else. *)
Definition ready (ps : gmap Z device) : Prop :=
  (∃ r, ps !! PIN_LED_R = Some (Led r)) ∧
  (∃ g, ps !! PIN_LED_G = Some (Led g)) ∧
  (∃ f, ps !! PIN_LED_FLASH = Some (Led f)) ∧
  ps !! PIN_SWITCH = Some (Button true) ∧
  (∀ pin, pin ≠ PIN_LED_R → pin ≠ PIN_LED_G → pin ≠ PIN_LED_FLASH →
          pin ≠ PIN_SWITCH → ps !! pin = None).

(** Alert and ok are lit together in no logged state other than the one
  that [led_r.on()] itself leaves. *)
Definition calm (h : list (hw_event * gmap Z device)) : Prop :=
  ∀ e ps, (e, ps) ∈ h → alert ps = true → ok ps = true → e = PinWrite PIN_LED_R true.

Definition settled (w : world) : Prop :=
  calm (hw w) ∧ alert (pins w) && ok (pins w) = false.

(** The hardware events between two worlds of one run. *)
Definition events_since (w w' : world) : list hw_event :=
  (drop (length (hw w)) (hw w')).*1.

Definition init_camera : M world unit := camera_event CameraConfigure.

(** [camera.capture(rawCapture, format='bgr', resize=(400, 250))] followed
  by [rawCapture.array]: [shot] is what the sensor delivers, [None] when
  the capture fails. *)
Definition capture {Frame} (shot : option Frame) : M world Frame :=
  camera_event CameraCapture ;;
  match shot with
  | Some image => mret image
  | None => raise PiCameraError
  end.

Inductive page : Type := MainPage | InprogressPage.

Section WithOpenCV.

(** The colour frame and the three OpenCV calls whose code is outside the
  repository. *)
Context {Frame : Type}.
Variable cvtColor_BGR2GRAY : Frame → GrayImg.
Variable findContours_EXTERNAL_SIMPLE : GrayImg → list Contour.
Variable boundingRect : Contour → Z * Z * Z * Z.

(** Lines 672-677: one iteration, on the rectangles drawn so far and [obj]. *)
Definition mark_step (st : list draw * Z) (c : Contour) : list draw * Z :=
  let '(drawn, obj) := st in
  let '(x, y, w, h) := boundingRect c in
  if (35 <? w) && (35 <? h)
  then (drawn ++ [Rectangle (x, y) (x + w, y + h) (255, 0, 0) 2], obj + 1)
  else (drawn, obj).

Definition mark (conts : list Contour) : list draw * Z :=
  foldl mark_step ([], 0) conts.

(** Lines 668-677 on the two gray images: the rectangles drawn on the
  frame and the final [obj]. *)
Definition detect (base_gray : option GrayImg) (image_gray : GrayImg) (sens : Z)
  : result (list draw * Z) :=
  match binarize base_gray image_gray sens with
  | Ok thresh => Ok (mark (findContours_EXTERNAL_SIMPLE thresh))
  | Raise e => Raise e
  end.

(** [DifferenceFrame.run_dif].  [sens] is [self.sens.get()], [average_jpg]
  what [cv2.imread('average.jpg', 0)] returns and [shot] what the camera
  delivers.  The result is the frame, the rectangles drawn on it and
  [obj]. *)
Definition run_dif (sens : Z) (average_jpg : option GrayImg) (shot : option Frame)
  : M world (Frame * list draw * Z) :=
  let base_gray := average_jpg in
  with_PiCamera (
    init_camera ;;
    led_on PIN_LED_FLASH ;;
    image ← capture shot ;
    led_off PIN_LED_FLASH ;;
    let image_gray := cvtColor_BGR2GRAY image in
    '(drawn, obj) ← lift (detect base_gray image_gray sens) ;
    (if bool_decide (obj ≠ 0)
     then led_on PIN_LED_R ;; led_off PIN_LED_G
     else led_off PIN_LED_R ;; led_on PIN_LED_G) ;;
    mret (image, drawn, obj)).

(** [DifferenceFrame.init_inprogress] *)
Definition init_inprogress : M world unit :=
  gpio_open PIN_SWITCH (Button false) ;;
  bind_when_pressed PIN_SWITCH ;;
  gpio_open PIN_LED_R (Led false) ;;
  gpio_open PIN_LED_G (Led false) ;;
  gpio_open PIN_LED_FLASH (Led false).

(** [DifferenceFrame.inprogress2main]: after the main frame is shown again,
  lines 726-729 close the four devices. *)
Definition inprogress2main : M world unit :=
  gpio_close PIN_LED_R ;;
  gpio_close PIN_LED_G ;;
  gpio_close PIN_LED_FLASH ;;
  gpio_close PIN_SWITCH.

(** The page: which of its two frames is shown, the sensitivity variable
  and the hardware. *)
Record frame_state : Type := FrameState {
  shown : page;
  sens : Z;
  hardware : world
}.

(** What can happen to the page.  [Begin] is [main2inprogress], the
  switch press is [run_dif], [Back] is [inprogress2main]; a handler that
  raises leaves the page where it was. *)
Inductive step : frame_state → frame_state → Prop :=
  | step_scale f v :
      shown f = MainPage → 0 <= v <= 50 →
      step f (FrameState MainPage v (hardware f))
  | step_begin f w' :
      shown f = MainPage →
      init_inprogress (hardware f) = (Ok (), w') →
      step f (FrameState InprogressPage (sens f) w')
  | step_begin_raises f e w' :
      shown f = MainPage →
      init_inprogress (hardware f) = (Raise e, w') →
      step f (FrameState MainPage (sens f) w')
  | step_pressed f average_jpg shot r w' :
      shown f = InprogressPage →
      run_dif (sens f) average_jpg shot (hardware f) = (r, w') →
      step f (FrameState InprogressPage (sens f) w')
  | step_back f w' :
      shown f = InprogressPage →
      inprogress2main (hardware f) = (Ok (), w') →
      step f (FrameState MainPage (sens f) w').

(** The devices a page holds: none on the main frame, its four on the
  in-progress frame. *)
Definition page_pins (p : page) (ps : gmap Z device) : Prop :=
  match p with
  | MainPage => ps = ∅
  | InprogressPage => ready ps
  end.

Definition initial : frame_state := FrameState MainPage 25 (World ∅ []).

Inductive reachable : frame_state → Prop :=
  | reachable_initial : reachable initial
  | reachable_step f f' : reachable f → step f f' → reachable f'.

End WithOpenCV.

End Difference.

(* --------------------------------------------------------------------- *)
(** ** A reference model of the OpenCV calls                              *)
(* --------------------------------------------------------------------- *)

(** The page is stated over any [cvtColor], [findContours] and
  [boundingRect].  To run it on concrete images this module gives the
  three calls the meaning OpenCV documents for 8-bit images: the
  fixed-point luminance weights, the 8-connected components of the
  non-zero pixels, and the smallest upright rectangle around a point set.

  [cv2.RETR_EXTERNAL] leaves out a component that lies inside a hole of
  another one; [findContours] below reports every component, which is the
  same list whenever no component encloses another.  A component is
  reported through the end points of its horizontal runs, a set of border
  points with the same bounding rectangle as the traced border. *)

Module OpenCV.

(** A BGR frame, row by row. *)
Abbreviation BGR := (list (list (Z * Z * Z))) (only parsing).

Definition gray_px (bgr : Z * Z * Z) : Z :=
  let '(b, g, r) := bgr in
  Z.shiftr (b * 1868 + g * 9617 + r * 4899 + 8192) 14.

Definition cvtColor_BGR2GRAY (image : BGR) : list (list Z) :=
  (λ row : list (Z * Z * Z), gray_px <$> row) <$> image.

(** A maximal horizontal run of non-zero pixels: row [y], columns
  [x0 .. x1]. *)
Record run : Type := Run { run_y : Z; run_x0 : Z; run_x1 : Z }.

Definition close_run (y x : Z) (start : option Z) : list run :=
  match start with
  | Some x0 => [Run y x0 (x - 1)]
  | None => []
  end.

Fixpoint row_runs (y x : Z) (start : option Z) (row : list Z) : list run :=
  match row with
  | [] => close_run y x start
  | p :: row' =>
      if p =? 0 then close_run y x start ++ row_runs y (x + 1) None row'
      else row_runs y (x + 1) (Some (default x start)) row'
  end.

Fixpoint image_runs (y : Z) (img : list (list Z)) : list run :=
  match img with
  | [] => []
  | row :: img' => row_runs y 0 None row ++ image_runs (y + 1) img'
  end.

(** Two runs hold 8-adjacent pixels. *)
Definition touching (r1 r2 : run) : bool :=
  (Z.abs (run_y r1 - run_y r2) <=? 1)
  && (run_x0 r1 <=? run_x1 r2 + 1) && (run_x0 r2 <=? run_x1 r1 + 1).

(** Grow a component from its frontier until no remaining run touches it. *)
Fixpoint grow (fuel : nat) (frontier comp rest : list run) : list run * list run :=
  match fuel with
  | O => (comp ++ frontier, rest)
  | S fuel' =>
      let near := filter (λ r, existsb (touching r) frontier) rest in
      let far := filter (λ r, ¬ existsb (touching r) frontier) rest in
      match near with
      | [] => (comp ++ frontier, far)
      | _ :: _ => grow fuel' near (comp ++ frontier) far
      end
  end.

Fixpoint components (fuel : nat) (runs : list run) : list (list run) :=
  match fuel, runs with
  | S fuel', r :: rest =>
      let '(comp, rest') := grow (length rest) [r] [] rest in
      comp :: components fuel' rest'
  | _, _ => []
  end.

Definition run_points (r : run) : list (Z * Z) :=
  [(run_x0 r, run_y r); (run_x1 r, run_y r)].

Definition findContours (img : list (list Z)) : list (list (Z * Z)) :=
  let runs := image_runs 0 img in
  (λ comp : list run, comp ≫= run_points) <$> components (length runs) runs.

Definition min_list (d : Z) (l : list Z) : Z := foldr Z.min d l.
Definition max_list (d : Z) (l : list Z) : Z := foldr Z.max d l.

Definition boundingRect (c : list (Z * Z)) : Z * Z * Z * Z :=
  match c with
  | [] => (0, 0, 0, 0)
  | (x0, y0) :: _ =>
      let xmin := min_list x0 (fst <$> c) in
      let xmax := max_list x0 (fst <$> c) in
      let ymin := min_list y0 (snd <$> c) in
      let ymax := max_list y0 (snd <$> c) in
      (xmin, ymin, xmax - xmin + 1, ymax - ymin + 1)
  end.

(** An image given by its pixels. *)
Definition image_of {A} (height width : Z) (f : Z → Z → A) : list (list A) :=
  (λ y : Z, (λ x : Z, f x y) <$> seqZ 0 width) <$> seqZ 0 height.

Definition inside (x y x0 y0 w h : Z) : bool :=
  (x0 <=? x) && (x <? x0 + w) && (y0 <=? y) && (y <? y0 + h).

End OpenCV.

(* --------------------------------------------------------------------- *)
(** ** Concrete scenes                                                    *)
(* --------------------------------------------------------------------- *)

(** Images of the size the page works on (400 columns, 250 rows), used to
  run the handlers. *)

Module Scenes.

(** The baseline of a clean mold: all black. *)
Definition black : list (list Z) := OpenCV.image_of 250 400 (λ _ _, 0).

(** A black frame. *)
Definition clean : list (list (Z * Z * Z)) :=
  OpenCV.image_of 250 400 (λ _ _, (0, 0, 0)).

(** Two bright 36x36 squares, at (100, 100) and (140, 100), joined by a
  dim bar four pixels long on row 117. *)
Definition bridged_px (x y : Z) : Z * Z * Z :=
  if OpenCV.inside x y 100 100 36 36 || OpenCV.inside x y 140 100 36 36
  then (200, 200, 200)
  else if OpenCV.inside x y 136 117 4 1 then (30, 30, 30)
  else (0, 0, 0).

Definition bridged : list (list (Z * Z * Z)) := OpenCV.image_of 250 400 bridged_px.

(** The page after [Begin]: the button bound, the three LEDs off. *)
Definition armed : Difference.world :=
  (Difference.init_inprogress (Difference.World ∅ [])).2.

Definition armed_page : Difference.frame_state :=
  Difference.FrameState Difference.InprogressPage 25 armed.

(** One-pixel images and their integer mean, to run the calibration page;
  ten good captures are waiting in the sensor. *)
Definition mean (images : list Z) : Z :=
  foldr Z.add 0 images `div` Z.of_nat (length images).


(** One inspection cycle on the reference model of OpenCV. *)
Definition cycle (sens : Z) (frame : list (list (Z * Z * Z))) (w : Difference.world)
  : result (list (list (Z * Z * Z)) * list Difference.draw * Z) * Difference.world :=
  Difference.run_dif OpenCV.cvtColor_BGR2GRAY OpenCV.findContours OpenCV.boundingRect
    sens (Some black) (Some frame) w.

End Scenes.

(* --------------------------------------------------------------------- *)
(** ** wincup.py: [RectTracker]                                            *)
(* --------------------------------------------------------------------- *)

Module RectTracker.

(** A Tk canvas: its items under the ids Tk gave them.  Ids are handed out
    upwards and never reused. *)
Inductive shape : Type :=
  | Picture                              (* [create_image] *)
  | Rect (corner1 corner2 : Z * Z).      (* [create_rectangle] *)

Record canvas : Type := Canvas {
  items : gmap nat shape;
  next_id : nat
}.

Definition create (s : shape) (c : canvas) : nat * canvas :=
  (next_id c, Canvas (<[next_id c := s]> (items c)) (S (next_id c))).

(** [canvas.delete(item)]; an id that is not on the canvas is ignored. *)
Definition delete_item (i : nat) (c : canvas) : canvas :=
  Canvas (delete i (items c)) (next_id c).

(** [self.start] and [self.item]. *)
Record tracker : Type := Tracker {
  start : option (Z * Z);
  item : option nat
}.

(** After [__init__] and [autodraw]. *)
Definition fresh : tracker := Tracker None None.

(** [RectTracker.__update], bound to the press and the motion of button 1;
    [_command] is the no-op default. *)
Definition update (event : Z * Z) (st : tracker * canvas) : tracker * canvas :=
  let '(t, c) := st in
  match start t with
  | None => (Tracker (Some event) (item t), c)
  | Some s =>
      let c := match item t with
               | Some i => delete_item i c
               | None => c
               end in
      let '(i, c) := create (Rect s event) c in
      (Tracker (Some s) (Some i), c)
  end.

(** [RectTracker.__stop], bound to the release of button 1. *)
Definition stop (st : tracker * canvas) : tracker * canvas :=
  let '(t, c) := st in (Tracker None (item t), c).

Inductive event : Type :=
  | Update (x y : Z)
  | Stop.

Definition handle (st : tracker * canvas) (e : event) : tracker * canvas :=
  match e with
  | Update x y => update (x, y) st
  | Stop => stop st
  end.

Definition run (events : list event) (st : tracker * canvas) : tracker * canvas :=
  foldl handle st events.

(** Every id on the canvas was handed out before. *)
Definition well_numbered (c : canvas) : Prop :=
  ∀ i, is_Some (items c !! i) → (i < next_id c)%nat.

(** What the tracker keeps on a canvas [c0] it started on: nothing of its
    own, or one rectangle under an id newer than everything on [c0]. *)
Definition tracks (c0 : canvas) (st : tracker * canvas) : Prop :=
  (next_id c0 ≤ next_id st.2)%nat ∧
  match item st.1 with
  | None => items st.2 = items c0
  | Some i =>
      (next_id c0 ≤ i < next_id st.2)%nat ∧
      ∃ corner1 corner2, items st.2 = <[i := Rect corner1 corner2]> (items c0)
  end.

End RectTracker.

(* --------------------------------------------------------------------- *)
(** ** wincup.py: [SettingsFrame.getzoomcoords]                            *)
(* --------------------------------------------------------------------- *)

Module Zoom.

(** The globals [dx, dy] (where button 1 went down) and [ux, uy] (where it
    came up), in whole canvas pixels. *)
Record drag : Type := Drag { dx : Z; dy : Z; ux : Z; uy : Z }.

Definition swap (g : drag) : drag := Drag (ux g) (uy g) (dx g) (dy g).

(** Lines 454-462 on one coordinate: first raised to 0, then lowered to
    the size of the image. *)
Definition clamp (size v : Z) : Z :=
  let v := if v <? 0 then 0 else v in
  if size <? v then size else v.

Section WithRatio.

(** [round(a / b, 3)], a binary64 computation, kept as a parameter. *)
Context {R : Type}.
Variable ratio3 : Z → Z → R.

(** [getzoomcoords]: the rectangle, or [None] for the [ZeroDivisionError]
    of an image without width or height, and the globals it leaves. *)
Definition getzoomcoords (zoom_w zoom_h : Z) (g : drag)
  : option (R * R * R * R) * drag :=
  let dx := if dx g <? 0 then 0 else dx g in
  let dy := if dy g <? 0 then 0 else dy g in
  let ux := if ux g <? 0 then 0 else ux g in
  let uy := if uy g <? 0 then 0 else uy g in
  let dx := if zoom_w <? dx then zoom_w else dx in
  let dy := if zoom_h <? dy then zoom_h else dy in
  let ux := if zoom_w <? ux then zoom_w else ux in
  let uy := if zoom_h <? uy then zoom_h else uy in
  let g' := Drag dx dy ux uy in
  if (zoom_w =? 0) || (zoom_h =? 0) then (None, g')
  else
    let xmin := ratio3 (Z.min dx ux) zoom_w in
    let xmax := ratio3 (Z.max dx ux) zoom_w in
    let ymin := ratio3 (Z.min dy uy) zoom_h in
    let ymax := ratio3 (Z.max dy uy) zoom_h in
    (Some (xmin, ymin, xmax, ymax), g').

End WithRatio.

End Zoom.

(* --------------------------------------------------------------------- *)
(** ** wincup.py: [SettingsFrame] and [init_camera]                        *)
(* --------------------------------------------------------------------- *)

Module Settings.

Inductive frame : Type :=
  | FrameMain | FrameSettings | FrameZoom | FrameZoomConfirm | FrameManual.

#[global] Instance frame_eq_dec : EqDecision frame.
Proof. solve_decision. Defined.

(** What a handler of the page can raise. *)
Inductive page_exn : Type :=
  | Python (e : exn)
  | ZeroDivisionError.

Inductive outcome (A : Type) : Type :=
  | Done (a : A)
  | Failed (e : page_exn).
Arguments Done {A} a.
Arguments Failed {A} e.

Definition succeeded {A} (r : outcome A) : bool :=
  match r with Done _ => true | Failed _ => false end.

Section WithNumbers.

(** The numbers of a zoom rectangle, [round(a / b, 3)] and the constants
    [0.0] and [1.0]: binary64 values, kept as parameters. *)
Context {R : Type}.
Variable ratio3 : Z → Z → R.
Variable zero one : R.

(** One section of [camerasettings.json], and the variables [def_*] and
    [cus_*] made from one.  The zoom variable holds the text of a tuple;
    [str] and [literal_eval] take a tuple of numbers to its text and back,
    so the tuple stands for its text. *)
Record settings : Type := Group {
  brightness : Z;
  contrast : Z;
  rotation : Z;
  sharpness : Z;
  shutter_speed : Z;
  zoom : R * R * R * R
}.

(** A settings file with its two sections. *)
Record store : Type := Store {
  default : settings;
  custom : settings
}.

(** What [init_camera] sets on the camera. *)
Record config : Type := Config {
  applied : settings;
  resolution : Z * Z;
  awb_mode : string
}.

(** The page: the file on disk, the object loaded from it, the variables,
    the flags, the frames that are packed, the zoom canvas ([zoom_w],
    [zoom_h] and the globals [dx, dy, ux, uy], bound by [init_zoom]),
    whether the next captures succeed, and the captures taken with the
    configuration of the camera. *)
Record page : Type := Page {
  disk : store;
  json_settings : store;
  defaults : settings;
  customs : settings;
  using_auto : option bool;
  zoom_finished : bool;
  packed : list frame;
  canvas : option (Z * Z * Zoom.drag);
  sensor : list bool;
  taken : list (string * config)
}.

Definition P (A : Type) : Type := page → outcome A * page.

#[global] Instance P_ret : MRet P := λ A a p, (Done a, p).

#[global] Instance P_bind : MBind P := λ A B k m p,
  match m p with
  | (Done a, p') => k a p'
  | (Failed e, p') => (Failed e, p')
  end.

Definition fail {A} (e : page_exn) : P A := λ p, (Failed e, p).

Definition change (f : page → page) : P unit := λ p, (Done (), f p).

Definition look {A} (f : page → A) : P A := λ p, (Done (f p), p).

Definition set_stores (d : store) (p : page) : page :=
  Page d d (defaults p) (customs p) (using_auto p) (zoom_finished p) (packed p)
       (canvas p) (sensor p) (taken p).

Definition set_customs (c : settings) (p : page) : page :=
  Page (disk p) (json_settings p) (defaults p) c (using_auto p) (zoom_finished p)
       (packed p) (canvas p) (sensor p) (taken p).

Definition set_using_auto (a : option bool) (p : page) : page :=
  Page (disk p) (json_settings p) (defaults p) (customs p) a (zoom_finished p)
       (packed p) (canvas p) (sensor p) (taken p).

Definition set_zoom_finished (b : bool) (p : page) : page :=
  Page (disk p) (json_settings p) (defaults p) (customs p) (using_auto p) b
       (packed p) (canvas p) (sensor p) (taken p).

Definition set_packed (l : list frame) (p : page) : page :=
  Page (disk p) (json_settings p) (defaults p) (customs p) (using_auto p)
       (zoom_finished p) l (canvas p) (sensor p) (taken p).

Definition set_canvas (c : option (Z * Z * Zoom.drag)) (p : page) : page :=
  Page (disk p) (json_settings p) (defaults p) (customs p) (using_auto p)
       (zoom_finished p) (packed p) c (sensor p) (taken p).

Definition set_camera (s : list bool) (t : list (string * config)) (p : page) : page :=
  Page (disk p) (json_settings p) (defaults p) (customs p) (using_auto p)
       (zoom_finished p) (packed p) (canvas p) s t.

Definition set_zoom (z : R * R * R * R) (c : settings) : settings :=
  Group (brightness c) (contrast c) (rotation c) (sharpness c) (shutter_speed c) z.

(** [frame.pack(...)] and [frame.pack_forget()] *)
Definition pack (f : frame) : P unit :=
  change (λ p, set_packed (if decide (f ∈ packed p) then packed p
                           else packed p ++ [f]) p).

Definition pack_forget (f : frame) : P unit :=
  change (λ p, set_packed (filter (λ g, g ≠ f) (packed p)) p).

(** [SettingsFrame.__init__]: [init_vars] on the file, then [init_main]. *)
Definition init (file : store) (captures : list bool) : page :=
  Page file file (default file) (custom file) None false [FrameMain] None captures [].

(** [save_vars]: the custom section of the loaded object is replaced by
    the variables, and the object is written out. *)
Definition save_vars : P unit :=
  change (λ p, set_stores (Store (default (json_settings p)) (customs p)) p).

(** [reset_to_default] *)
Definition reset_to_default : P unit :=
  change (λ p, set_customs (defaults p) p).

(** [init_camera(camera)]: the custom section of the file is set on the
    camera, then the resolution and the white balance. *)
Definition init_camera (p : page) : config :=
  Config (custom (disk p)) (640, 368) "auto".

(** [camera.capture(name, resize=(400, 250))] on a camera set up as [c]. *)
Definition capture (name : string) (c : config) : P unit :=
  λ p, match sensor p with
       | true :: rest => (Done (), set_camera rest (taken p ++ [(name, c)]) p)
       | false :: rest => (Failed (Python PiCameraError), set_camera rest (taken p) p)
       | [] => (Failed (Python PiCameraError), p)
       end.

(** [capture_image_zoom]: the whole field of view. *)
Definition capture_image_zoom : P unit :=
  save_vars ;;
  camera ← look init_camera ;
  capture "zoom_bg.gif"
          (Config (set_zoom (zero, zero, one, one) (applied camera))
                  (resolution camera) (awb_mode camera)).

(** [zoom_test] *)
Definition zoom_test : P unit :=
  save_vars ;;
  camera ← look init_camera ;
  capture "zoom_test.gif" camera.

(** [init_zoom]: the picture is captured at 400 x 250, which is what
    [img.width()] and [img.height()] return; the globals are set for a
    drag over the whole picture. *)
Definition init_zoom : P unit :=
  capture_image_zoom ;;
  change (set_canvas (Some (400, 250, Zoom.Drag 0 0 400 250))).

(** [savecoords_d] and [savecoords_u], bound to the press and the release
    of button 1 on the zoom canvas. *)
Definition savecoords_d (x y : Z) : P unit :=
  change (λ p, match canvas p with
               | Some (w, h, g) =>
                   set_canvas (Some (w, h, Zoom.Drag x y (Zoom.ux g) (Zoom.uy g))) p
               | None => p
               end).

Definition savecoords_u (x y : Z) : P unit :=
  change (λ p, match canvas p with
               | Some (w, h, g) =>
                   set_canvas (Some (w, h, Zoom.Drag (Zoom.dx g) (Zoom.dy g) x y)) p
               | None => p
               end).

(** [getzoomcoords] on the page; before [init_zoom] the global [dx] is
    unbound. *)
Definition getzoomcoords : P (R * R * R * R) :=
  λ p, match canvas p with
       | None => (Failed (Python (NameError "dx")), p)
       | Some (w, h, g) =>
           match Zoom.getzoomcoords ratio3 w h g with
           | (Some rect, g') => (Done rect, set_canvas (Some (w, h, g')) p)
           | (None, g') => (Failed ZeroDivisionError, set_canvas (Some (w, h, g')) p)
           end
       end.

(** [self.cus_zoo.set(str(self.getzoomcoords()))] *)
Definition store_zoom : P unit :=
  rect ← getzoomcoords ;
  change (λ p, set_customs (set_zoom rect (customs p)) p).

(** The navigation handlers.  [init_settings] and [init_manual] only build
    widgets. *)
Definition settings2main : P unit :=
  change (set_using_auto None) ;;
  pack_forget FrameSettings ;;
  pack FrameMain.

Definition main2settings : P unit :=
  change (set_using_auto (Some true)) ;;
  reset_to_default ;;
  pack_forget FrameMain ;;
  pack FrameSettings.

Definition settings2zoom : P unit :=
  init_zoom ;;
  pack_forget FrameSettings ;;
  pack FrameZoom.

Definition settings2splash : P unit :=
  change (set_zoom_finished false) ;;
  save_vars ;;
  settings2main.

Definition settings2manual : P unit :=
  pack_forget FrameSettings ;;
  pack FrameManual.

Definition init_zoom_confirm : P unit := zoom_test.

Definition zoom2settings_n : P unit :=
  pack_forget FrameZoom ;;
  save_vars ;;
  store_zoom ;;
  zoom_test ;;
  init_zoom_confirm ;;
  pack FrameZoomConfirm.

Definition zoom2settings_b : P unit :=
  change (set_zoom_finished false) ;;
  pack_forget FrameZoom ;;
  pack FrameSettings.

Definition zoom2manual : P unit :=
  change (set_zoom_finished false) ;;
  pack_forget FrameZoom ;;
  pack FrameManual.

Definition conf2settings : P unit :=
  pack_forget FrameZoomConfirm ;;
  store_zoom ;;
  change (set_zoom_finished true) ;;
  pack FrameSettings.

Definition conf2zoom : P unit :=
  init_zoom ;;
  pack_forget FrameZoomConfirm ;;
  pack FrameZoom.

Definition main2manual : P unit :=
  change (set_using_auto (Some false)) ;;
  pack_forget FrameMain ;;
  pack FrameManual.

Definition manual2zoom : P unit :=
  init_zoom ;;
  pack_forget FrameManual ;;
  pack FrameZoom.

Definition manual2main : P unit :=
  change (set_using_auto None) ;;
  pack_forget FrameManual ;;
  pack FrameMain.

(** The widgets of the manual frame work on the custom variables. *)
Inductive setting : Type := Bri | Con | Sha | Shu.

Definition get (k : setting) (c : settings) : Z :=
  match k with
  | Bri => brightness c
  | Con => contrast c
  | Sha => sharpness c
  | Shu => shutter_speed c
  end.

Definition set (k : setting) (v : Z) (c : settings) : settings :=
  match k with
  | Bri => Group v (contrast c) (rotation c) (sharpness c) (shutter_speed c) (zoom c)
  | Con => Group (brightness c) v (rotation c) (sharpness c) (shutter_speed c) (zoom c)
  | Sha => Group (brightness c) (contrast c) (rotation c) v (shutter_speed c) (zoom c)
  | Shu => Group (brightness c) (contrast c) (rotation c) (sharpness c) v (zoom c)
  end.

Definition set_rotation (v : Z) (c : settings) : settings :=
  Group (brightness c) (contrast c) v (sharpness c) (shutter_speed c) (zoom c).

(** The plus and the minus button of a widget. *)
Definition plus (k : setting) : P unit :=
  change (λ p,
    let v := get k (customs p) in
    let v' := match k with
              | Bri => Frames.BrightnessFrame.add v
              | Con => Frames.ContrastFrame.add v
              | Sha => Frames.SharpnessFrame.add v
              | Shu => Frames.ShutterSpeedFrame.add v
              end in
    set_customs (set k v' (customs p)) p).

Definition minus (k : setting) : P unit :=
  λ p,
    let v := get k (customs p) in
    let r := match k with
             | Bri => Ok (Frames.BrightnessFrame.sub v)
             | Con => Ok (Frames.ContrastFrame.sub v)
             | Sha => Ok (Frames.SharpnessFrame.sub v)
             | Shu => Frames.ShutterSpeedFrame.sub v
             end in
    match r with
    | Ok v' => (Done (), set_customs (set k v' (customs p)) p)
    | Raise e => (Failed (Python e), p)
    end.

(** The four radio buttons of [RotationFrame]. *)
Inductive quarter : Type := Deg0 | Deg90 | Deg180 | Deg270.

Definition degrees (q : quarter) : Z :=
  match q with Deg0 => 0 | Deg90 => 90 | Deg180 => 180 | Deg270 => 270 end.

Definition rotate (q : quarter) : P unit :=
  change (λ p, set_customs (set_rotation (degrees q) (customs p)) p).

(** What the operator can do with the buttons and on the zoom canvas, and
    the frame that offers it.  (The entries of the widgets can be typed
    into as well; that is not among the actions.) *)
Inductive action : Type :=
  | AutoSetup | ManualSetup | Home
  | SettingsBack | SettingsNextZoom | SettingsNextManual | SettingsBackZoom | Finish
  | ZoomNext | ZoomBackSettings | ZoomBackManual | Press (x y : Z) | Release (x y : Z)
  | ConfirmYes | ConfirmNo
  | ManualNext | ManualBack | ResetToDefault
  | Plus (k : setting) | Minus (k : setting) | Rotate (q : quarter).

Definition offered_by (a : action) : frame :=
  match a with
  | AutoSetup | ManualSetup | Home => FrameMain
  | SettingsBack | SettingsNextZoom | SettingsNextManual | SettingsBackZoom | Finish =>
      FrameSettings
  | ZoomNext | ZoomBackSettings | ZoomBackManual | Press _ _ | Release _ _ => FrameZoom
  | ConfirmYes | ConfirmNo => FrameZoomConfirm
  | ManualNext | ManualBack | ResetToDefault
  | Plus _ | Minus _ | Rotate _ => FrameManual
  end.

Definition handler (a : action) : P unit :=
  match a with
  | AutoSetup => main2settings
  | ManualSetup => main2manual
  | Home | Finish => settings2splash
  | SettingsBack => settings2main
  | SettingsNextZoom | SettingsBackZoom => settings2zoom
  | SettingsNextManual => settings2manual
  | ZoomNext => zoom2settings_n
  | ZoomBackSettings => zoom2settings_b
  | ZoomBackManual => zoom2manual
  | Press x y => savecoords_d x y
  | Release x y => savecoords_u x y
  | ConfirmYes => conf2settings
  | ConfirmNo => conf2zoom
  | ManualNext => manual2zoom
  | ManualBack => manual2main
  | ResetToDefault => reset_to_default
  | Plus k => plus k
  | Minus k => minus k
  | Rotate q => rotate q
  end.

Inductive step : page → page → Prop :=
  | step_action a p :
      offered_by a ∈ packed p → step p (handler a p).2.

Inductive reachable (file : store) (captures : list bool) : page → Prop :=
  | reachable_init : reachable file captures (init file captures)
  | reachable_step p p' :
      reachable file captures p → step p p' → reachable file captures p'.

(** The values the widgets allow. *)
Definition in_range (c : settings) : Prop :=
  0 <= brightness c <= 100 ∧ -100 <= contrast c <= 100 ∧
  (∃ q, rotation c = degrees q) ∧
  -100 <= sharpness c <= 100 ∧
  Frames.SHU_MIN <= shutter_speed c <= Frames.SHU_MAX.

(** What a handler establishes from a page that satisfies [pre]: [post]
    when it returns, [exc] when it raises. *)
Definition triple {A} (pre : page → Prop) (m : P A) (post exc : page → Prop) : Prop :=
  ∀ p, pre p →
    match m p with
    | (Done _, p') => post p'
    | (Failed _, p') => exc p'
    end.

(** An invariant of a handler, whether it returns or raises. *)
Definition preserves {A} (inv : page → Prop) (m : P A) : Prop :=
  triple inv m inv inv.

(** The frames that are shown. *)
Definition shows (l : list frame) (p : page) : Prop := packed p = l.

End WithNumbers.

End Settings.

(* --------------------------------------------------------------------- *)
(** ** Further scenes                                                     *)
(* --------------------------------------------------------------------- *)

Module MoreScenes.

(** Ten different one-pixel captures. *)
Definition ten_shots : list Z := [10; 20; 30; 40; 50; 60; 70; 80; 90; 100].

Definition ten_in_sensor : @Calibration.world Z :=
  Calibration.World ∅ (Some <$> ten_shots) [].

(** A camera that delivers two frames and then fails, in a directory that
    already holds a baseline. *)
Definition failing_third : @Calibration.world Z :=
  Calibration.World {["average.jpg" := 3]} [Some 7; Some 9; None; Some 11] [].

(** The zoom canvas: the captured picture is its only item. *)
Definition zoom_canvas : RectTracker.canvas :=
  RectTracker.Canvas {[1%nat := RectTracker.Picture]} 2.

(** A stand-in for [round(a / b, 3)]: the thousandths of [a / b]. *)
Definition thousandths (a b : Z) : Z := (2000 * a + b) `div` (2 * b).

(** A settings file, with [thousandths] for the zoom numbers. *)
Definition shipped : @Settings.store Z :=
  Settings.Store (Settings.Group 50 0 0 0 2000 (0, 0, 1000, 1000))
                 (Settings.Group 55 10 90 (-20) 2500 (100, 100, 900, 900)).

Definition press (a : Settings.action) (p : @Settings.page Z) : @Settings.page Z :=
  (Settings.handler thousandths 0 1000 a p).2.

(** The page opened on [shipped], after the given actions. *)
Definition play (actions : list Settings.action) (captures : list bool)
  : @Settings.page Z :=
  foldl (λ p a, press a p) (Settings.init shipped captures) actions.

(** Manual Setup with a few changes, Next, and a drag on the zoom canvas
    from (300, 200) back to (100, 50). *)
Definition to_zoom : list Settings.action :=
  [Settings.ManualSetup; Settings.Plus Settings.Bri; Settings.Minus Settings.Con;
   Settings.Rotate Settings.Deg180; Settings.ManualNext;
   Settings.Press 300 200; Settings.Release 100 50].

Definition to_finish : list Settings.action :=
  to_zoom ++ [Settings.ZoomNext; Settings.ConfirmYes; Settings.Finish].

End MoreScenes.

(* ===================================================================== *)
(** * Part II: properties                                                 *)
(* ===================================================================== *)

Section FramesProperties.
Import Frames.

Lemma brightness_add_range (v : Z) : 0 <= BrightnessFrame.add v <= 100.
Proof.
  unfold BrightnessFrame.add, BRI_DELTA.
  destruct (Z.leb_spec (100 - 5) v); [lia|].
  destruct (Z.ltb_spec v (100 - 5)), (Z.leb_spec 0 v); simpl; lia.
Qed.

Lemma brightness_sub_range (v : Z) : 0 <= BrightnessFrame.sub v <= 100.
Proof.
  unfold BrightnessFrame.sub, BRI_DELTA.
  destruct (Z.ltb_spec 100 v); [lia|].
  destruct (Z.leb_spec v 100), (Z.leb_spec (5 + 0) v); simpl; lia.
Qed.

(** C9. Whatever integer the brightness variable holds, the value stored
    by the increment and by the decrement handler lies in [0, 100]:
    increment stores 100 from [100 - BRI_DELTA] upwards and 0 below 0,
    decrement stores 100 above 100 and 0 below [BRI_DELTA]. *)
Theorem brightness_stays_in_range :
  ∀ v : Z,
    (0 <= BrightnessFrame.add v <= 100) ∧
    (0 <= BrightnessFrame.sub v <= 100) ∧
    (100 - BRI_DELTA <= v → BrightnessFrame.add v = 100) ∧
    (v < 0 → BrightnessFrame.add v = 0) ∧
    (100 < v → BrightnessFrame.sub v = 100) ∧
    (v < BRI_DELTA → BrightnessFrame.sub v = 0).
Proof.
  intros v. split; [apply brightness_add_range|].
  split; [apply brightness_sub_range|].
  unfold BrightnessFrame.add, BrightnessFrame.sub, BRI_DELTA.
  repeat split; intros Hv.
  - destruct (Z.leb_spec (100 - 5) v); [done|lia].
  - destruct (Z.leb_spec (100 - 5) v); [lia|].
    destruct (Z.leb_spec 0 v); [lia|]. by rewrite andb_false_r.
  - destruct (Z.ltb_spec 100 v); [done|lia].
  - destruct (Z.ltb_spec 100 v); [lia|].
    destruct (Z.leb_spec (5 + 0) v); [lia|]. by rewrite andb_false_r.
Qed.

(** C8. For every shutter-speed value below [SHU_MIN + SHU_DELTA] (1100)
    the decrement handler raises [NameError] on [vSHU_MIN]; it does not
    store [SHU_MIN]. *)
Theorem shutter_sub_below_raises (v : Z) :
  v < SHU_MIN + SHU_DELTA →
  ShutterSpeedFrame.sub v = Raise (NameError "vSHU_MIN") ∧
  ShutterSpeedFrame.sub v ≠ Ok SHU_MIN.
Proof.
  unfold SHU_MIN, SHU_DELTA. intros Hv.
  assert (ShutterSpeedFrame.sub v = Raise (NameError "vSHU_MIN")) as ->; [|done].
  unfold ShutterSpeedFrame.sub, SHU_MAX, SHU_MIN, SHU_DELTA.
  destruct (Z.ltb_spec 3000 v); [lia|].
  destruct (Z.leb_spec (100 + 1000) v); [lia|]. by rewrite andb_false_r.
Qed.

Lemma shutter_sub_below_raises_at_1000 :
  1000 < SHU_MIN + SHU_DELTA ∧
  ShutterSpeedFrame.sub 1000 = Raise (NameError "vSHU_MIN") ∧
  ShutterSpeedFrame.sub 1000 ≠ Ok SHU_MIN.
Proof.
  split; [reflexivity|]. apply (shutter_sub_below_raises 1000). reflexivity.
Defined.

End FramesProperties.

(* --------------------------------------------------------------------- *)
(** ** Reasoning about handlers                                           *)
(* --------------------------------------------------------------------- *)

Section Effects.
Context {W : Type}.

Lemma bind_Ok {A B} (m : M W A) (k : A → M W B) w b w' :
  (m ≫= k) w = (Ok b, w') ↔ ∃ a w1, m w = (Ok a, w1) ∧ k a w1 = (Ok b, w').
Proof.
  unfold mbind, M_bind. split.
  - destruct (m w) as [[a|e] w1]; [eauto|discriminate].
  - intros (a & w1 & -> & ?). done.
Qed.

Lemma bind_run {A B} (m : M W A) (k : A → M W B) w a w1 :
  m w = (Ok a, w1) → (m ≫= k) w = k a w1.
Proof. unfold mbind, M_bind. by intros ->. Qed.


End Effects.

(* --------------------------------------------------------------------- *)
(** ** Differencing and thresholding                                       *)
(* --------------------------------------------------------------------- *)

Section Pixels.
Import Difference.

Lemma pixel_absdiff (base image diff : list (list Z)) (y x : nat) (b f : Z) :
  absdiff (Some base) image = Ok diff →
  pixel base y x = Some b → pixel image y x = Some f →
  pixel diff y x = Some (Z.abs (b - f)).
Proof.
  unfold absdiff, pixel. destruct (same_shape base image); [|discriminate].
  intros [= <-] Hb Hf. rewrite lookup_zip_with.
  destruct (base !! y) as [rb|]; [|discriminate].
  destruct (image !! y) as [rf|]; [|discriminate]. simpl in *.
  rewrite lookup_zip_with, Hb, Hf. done.
Qed.

Lemma pixel_threshold (src : list (list Z)) (thresh maxval : Z) (y x : nat) :
  pixel (threshold src thresh maxval) y x
  = threshold_px thresh maxval <$> pixel src y x.
Proof.
  unfold pixel, threshold. rewrite list_lookup_fmap.
  destruct (src !! y) as [row|]; simpl; [|done]. apply list_lookup_fmap.
Qed.

Lemma foreground_threshold (src : list (list Z)) (sens : Z) (y x : nat) (d : Z) :
  pixel src y x = Some d →
  foreground (threshold src sens 255) y x = bool_decide (sens < d).
Proof.
  intros Hd. unfold foreground. rewrite pixel_threshold, Hd. simpl.
  unfold threshold_px. destruct (Z.ltb_spec sens d).
  - rewrite !bool_decide_eq_true_2; [done|lia|done].
  - rewrite !bool_decide_eq_false_2; [done|lia|]. intros Hne. by apply Hne.
Qed.

Lemma foreground_inside (img : list (list Z)) (y x : nat) :
  foreground img y x = true → is_Some (pixel img y x).
Proof. unfold foreground. destruct (pixel img y x); [eauto|discriminate]. Qed.

Lemma pixel_absdiff_inv (base image diff : list (list Z)) (y x : nat) (d : Z) :
  absdiff (Some base) image = Ok diff →
  pixel diff y x = Some d →
  ∃ b f, pixel base y x = Some b ∧ pixel image y x = Some f ∧ d = Z.abs (b - f).
Proof.
  unfold absdiff, pixel. destruct (same_shape base image); [|discriminate].
  intros [= <-]. rewrite lookup_zip_with.
  destruct (base !! y) as [rb|]; [|discriminate].
  destruct (image !! y) as [rf|]; [|discriminate]. simpl.
  rewrite lookup_zip_with.
  destruct (rb !! x) as [b|]; [|discriminate].
  destruct (rf !! x) as [f|]; [|discriminate]. simpl.
  intros [= <-]. eauto.
Qed.

Lemma binarize_Ok (base : option (list (list Z))) (image thresh : list (list Z)) sens :
  binarize base image sens = Ok thresh ↔
  ∃ diff, absdiff base image = Ok diff ∧ thresh = threshold diff sens 255.
Proof.
  unfold binarize. destruct (absdiff base image) as [diff|e]; split.
  - intros [= <-]. eauto.
  - intros (d & [= <-] & ->). done.
  - discriminate.
  - intros (d & [=] & _).
Qed.

(** C2. In the detection, a pixel is foreground exactly when the absolute
  difference of the baseline and the frame luminance at that pixel is
  strictly greater than the sensitivity; a difference equal to the
  sensitivity is background, and at sensitivity 255 no pixel of an 8-bit
  image pair is foreground. *)
Theorem foreground_iff_diff_above_sens
    (base image thresh : list (list Z)) (sens : Z) :
  binarize (Some base) image sens = Ok thresh →
  (∀ (y x : nat) (b f : Z),
      pixel base y x = Some b → pixel image y x = Some f →
      (foreground thresh y x = true ↔ sens < Z.abs (b - f)) ∧
      (Z.abs (b - f) = sens → foreground thresh y x = false)) ∧
  (u8 base → u8 image → sens = 255 →
   ∀ y x : nat, foreground thresh y x = false).
Proof.
  intros (diff & Hdiff & ->)%binarize_Ok. split.
  - intros y x b f Hb Hf.
    rewrite (foreground_threshold _ _ _ _ _ (pixel_absdiff _ _ _ _ _ _ _ Hdiff Hb Hf)).
    split.
    + apply bool_decide_eq_true.
    + intros <-. apply bool_decide_eq_false. lia.
  - intros Hbase Himage -> y x.
    destruct (foreground (threshold diff 255 255) y x) eqn:Hfg; [|done].
    destruct (foreground_inside _ _ _ Hfg) as [p Hp].
    rewrite pixel_threshold in Hp.
    destruct (pixel diff y x) as [d|] eqn:Hd; [|discriminate].
    destruct (pixel_absdiff_inv _ _ _ _ _ _ Hdiff Hd) as (b & f & Hb & Hf & ->).
    rewrite (foreground_threshold _ _ _ _ _ Hd) in Hfg.
    apply bool_decide_eq_true in Hfg.
    specialize (Hbase _ _ _ Hb). specialize (Himage _ _ _ Hf). lia.
Qed.

Lemma foreground_iff_diff_above_sens_on_a_row :
  binarize (Some [[10; 200; 30]]) [[15; 20; 36]] 5 = Ok [[0; 255; 255]] ∧
  (∀ (y x : nat) (b f : Z),
      pixel [[10; 200; 30]] y x = Some b → pixel [[15; 20; 36]] y x = Some f →
      (foreground [[0; 255; 255]] y x = true ↔ 5 < Z.abs (b - f)) ∧
      (Z.abs (b - f) = 5 → foreground [[0; 255; 255]] y x = false)) ∧
  (u8 [[10; 200; 30]] → u8 [[15; 20; 36]] → 5 = 255 →
   ∀ y x : nat, foreground [[0; 255; 255]] y x = false).
Proof.
  split; [reflexivity|].
  apply (foreground_iff_diff_above_sens [[10; 200; 30]] [[15; 20; 36]] [[0; 255; 255]] 5).
  reflexivity.
Defined.

End Pixels.

(* --------------------------------------------------------------------- *)
(** ** The size filter                                                     *)
(* --------------------------------------------------------------------- *)

Section SizeFilter.
Import Difference.
Variable boundingRect : list (Z * Z) → Z * Z * Z * Z.

Lemma passes_iff x y w h : passes (x, y, w, h) = true ↔ 35 < w ∧ 35 < h.
Proof. unfold passes. rewrite andb_true_iff, !Z.ltb_lt. done. Qed.

Lemma outline_inj x y w h x' y' w' h' :
  outline (x, y, w, h) = outline (x', y', w', h') → (x, y, w, h) = (x', y', w', h').
Proof. unfold outline. intros [= -> -> Hw Hh]. repeat f_equal; lia. Qed.

Lemma mark_step_passes st c :
  mark_step boundingRect st c
  = if passes (boundingRect c)
    then (st.1 ++ [outline (boundingRect c)], st.2 + 1)
    else st.
Proof.
  destruct st as [drawn obj]. unfold mark_step, passes, outline.
  destruct (boundingRect c) as [[[x y] w] h]. done.
Qed.

Lemma foldl_mark_step conts st :
  foldl (mark_step boundingRect) st conts
  = (st.1 ++ (outline <$> filter (λ r, passes r) (boundingRect <$> conts)),
     st.2 + Z.of_nat (length (filter (λ r, passes r) (boundingRect <$> conts)))).
Proof.
  revert st. induction conts as [|c conts IH]; intros [drawn obj]; cbn [foldl].
  - simpl. rewrite app_nil_r. f_equal. lia.
  - rewrite IH, mark_step_passes. rewrite fmap_cons, filter_cons.
    destruct (decide (passes (boundingRect c))) as [Hp|Hp].
    + apply Is_true_true in Hp. rewrite Hp. cbn [fst snd fmap list_fmap length].
      rewrite <- app_assoc. simpl. f_equal. lia.
    + apply Is_true_false in Hp. rewrite Hp. done.
Qed.

Lemma mark_filter conts :
  mark boundingRect conts
  = (outline <$> filter (λ r, passes r) (boundingRect <$> conts),
     Z.of_nat (length (filter (λ r, passes r) (boundingRect <$> conts)))).
Proof. unfold mark. by rewrite foldl_mark_step. Qed.

(** C3. A candidate region is kept (its rectangle is drawn and [obj]
  counts it) exactly when its bounding rectangle is strictly wider than
  35 and strictly higher than 35: a 35x50 and a 50x35 region are
  rejected, a 36x36 and a 36x50 region are kept. *)
Theorem kept_iff_wider_and_higher_than_35 (conts : list (list (Z * Z))) :
  (∀ c x y w h,
      c ∈ conts → boundingRect c = (x, y, w, h) →
      (Rectangle (x, y) (x + w, y + h) (255, 0, 0) 2 ∈ (mark boundingRect conts).1
       ↔ 35 < w ∧ 35 < h)) ∧
  (mark boundingRect conts).2
  = Z.of_nat (length (filter (λ c, Difference.passes (boundingRect c)) conts)) ∧
  (∀ c x y,
      (boundingRect c = (x, y, 35, 50) → mark boundingRect [c] = ([], 0)) ∧
      (boundingRect c = (x, y, 50, 35) → mark boundingRect [c] = ([], 0)) ∧
      (boundingRect c = (x, y, 36, 50) →
       mark boundingRect [c] = ([Rectangle (x, y) (x + 36, y + 50) (255, 0, 0) 2], 1)) ∧
      (boundingRect c = (x, y, 36, 36) →
       mark boundingRect [c] = ([Rectangle (x, y) (x + 36, y + 36) (255, 0, 0) 2], 1))).
Proof.
  split; [|split].
  - intros c x y w h Hc Hr. rewrite mark_filter. simpl.
    change (Rectangle (x, y) (x + w, y + h) (255, 0, 0) 2) with (outline (x, y, w, h)).
    rewrite <- passes_iff. rewrite list_elem_of_fmap. split.
    + intros ([[[x' y'] w'] h'] & Heq & Hin). apply outline_inj in Heq as [= -> -> -> ->].
      apply list_elem_of_filter in Hin as [Hp _]. by apply Is_true_true.
    + intros Hp. exists (x, y, w, h). split; [done|].
      apply list_elem_of_filter. split; [by rewrite Hp|].
      rewrite <- Hr. by apply list_elem_of_fmap_2.
  - rewrite mark_filter. simpl. f_equal.
    induction conts as [|c conts IH]; [done|].
    rewrite fmap_cons, !filter_cons.
    destruct (decide (passes (boundingRect c))); simpl; by rewrite IH.
  - intros c x y. unfold mark. simpl. repeat split; intros Hr;
      unfold mark_step; rewrite Hr; reflexivity.
Qed.

End SizeFilter.

Lemma kept_iff_wider_and_higher_than_35_on_a_square :
  [(10, 10); (49, 10); (10, 49); (49, 49)] ∈ [[(10, 10); (49, 10); (10, 49); (49, 49)]] ∧
  OpenCV.boundingRect [(10, 10); (49, 10); (10, 49); (49, 49)] = (10, 10, 40, 40) ∧
  (Difference.Rectangle (10, 10) (10 + 40, 10 + 40) (255, 0, 0) 2
     ∈ (Difference.mark OpenCV.boundingRect [[(10, 10); (49, 10); (10, 49); (49, 49)]]).1
   ↔ 35 < 40 ∧ 35 < 40).
Proof.
  split; [apply list_elem_of_here|]. split; [reflexivity|].
  apply (proj1 (kept_iff_wider_and_higher_than_35 OpenCV.boundingRect
                  [[(10, 10); (49, 10); (10, 49); (49, 49)]])
                [(10, 10); (49, 10); (10, 49); (49, 49)] 10 10 40 40).
  - apply list_elem_of_here.
  - reflexivity.
Defined.

(* --------------------------------------------------------------------- *)
(** ** Sensitivity and the number of kept regions                          *)
(* --------------------------------------------------------------------- *)

Section Sensitivity.
Import Difference.

Lemma threshold_px_shrinks (s1 s2 d : Z) :
  s1 <= s2 → threshold_px s2 255 d ≠ 0 → threshold_px s1 255 d ≠ 0.
Proof.
  unfold threshold_px. intros Hs.
  destruct (Z.ltb_spec s2 d), (Z.ltb_spec s1 d); (done || lia).
Qed.

Lemma row_foreground_shrinks (s1 s2 : Z) (row : list Z) :
  s1 <= s2 →
  (length (filter (λ p : Z, p ≠ 0%Z) (threshold_px s2 255 <$> row))
   ≤ length (filter (λ p : Z, p ≠ 0%Z) (threshold_px s1 255 <$> row)))%nat.
Proof.
  intros Hs. induction row as [|d row IH]; [done|].
  rewrite !fmap_cons, !filter_cons.
  destruct (decide (threshold_px s2 255 d ≠ 0)) as [H2|H2].
  - rewrite decide_True by eauto using threshold_px_shrinks. simpl. lia.
  - destruct (decide (threshold_px s1 255 d ≠ 0)); simpl; lia.
Qed.

Lemma count_foreground_shrinks (s1 s2 : Z) (diff : list (list Z)) :
  s1 <= s2 →
  (count_foreground (threshold diff s2 255)
   ≤ count_foreground (threshold diff s1 255))%nat.
Proof.
  intros Hs. unfold count_foreground, threshold.
  induction diff as [|row diff IH]; [done|].
  rewrite !fmap_cons. simpl.
  pose proof (row_foreground_shrinks s1 s2 row Hs). lia.
Qed.

(** C4, as it holds.  For a fixed baseline and frame, raising the
  sensitivity never adds a foreground pixel: every pixel that is
  foreground at the higher sensitivity is foreground at the lower one,
  and the number of foreground pixels does not increase. *)
Theorem foreground_never_grows_with_sens
    (base image thresh1 thresh2 : list (list Z)) (s1 s2 : Z) :
  s1 <= s2 →
  binarize (Some base) image s1 = Ok thresh1 →
  binarize (Some base) image s2 = Ok thresh2 →
  (∀ y x : nat, foreground thresh2 y x = true → foreground thresh1 y x = true) ∧
  (count_foreground thresh2 ≤ count_foreground thresh1)%nat.
Proof.
  intros Hs (diff & Hdiff & ->)%binarize_Ok (diff' & Hdiff' & ->)%binarize_Ok.
  rewrite Hdiff in Hdiff'. injection Hdiff' as <-. split.
  - intros y x Hfg. destruct (foreground_inside _ _ _ Hfg) as [p Hp].
    rewrite pixel_threshold in Hp.
    destruct (pixel diff y x) as [d|] eqn:Hd; [|discriminate].
    rewrite (foreground_threshold _ s2 _ _ _ Hd) in Hfg.
    rewrite (foreground_threshold _ s1 _ _ _ Hd).
    apply bool_decide_eq_true in Hfg. apply bool_decide_eq_true. lia.
  - by apply count_foreground_shrinks.
Qed.

Lemma foreground_never_grows_with_sens_on_a_row :
  5 <= 40 ∧
  binarize (Some [[10; 200; 30]]) [[15; 20; 36]] 5 = Ok [[0; 255; 255]] ∧
  binarize (Some [[10; 200; 30]]) [[15; 20; 36]] 40 = Ok [[0; 255; 0]] ∧
  (∀ y x : nat, foreground [[0; 255; 0]] y x = true →
                foreground [[0; 255; 255]] y x = true) ∧
  (count_foreground [[0; 255; 0]]%Z ≤ count_foreground [[0; 255; 255]]%Z)%nat.
Proof.
  split; [lia|]. split; [reflexivity|]. split; [reflexivity|].
  apply (foreground_never_grows_with_sens [[10; 200; 30]] [[15; 20; 36]]
           [[0; 255; 255]] [[0; 255; 0]] 5 40); [lia|reflexivity|reflexivity].
Defined.

End Sensitivity.

(** C4, as stated, fails: on the all-black baseline and the frame with two
  bright squares joined by a dim bar, sensitivity 10 keeps one region
  (the squares and the bar form one component, 76 wide) and sensitivity
  40 keeps two (the bar drops out and each square is kept on its own). *)
Lemma kept_regions_grow_when_a_region_splits :
  ¬ (∀ s1 s2 r1 r2,
        s1 <= s2 →
        Difference.detect OpenCV.findContours OpenCV.boundingRect
          (Some Scenes.black) (OpenCV.cvtColor_BGR2GRAY Scenes.bridged) s1 = Ok r1 →
        Difference.detect OpenCV.findContours OpenCV.boundingRect
          (Some Scenes.black) (OpenCV.cvtColor_BGR2GRAY Scenes.bridged) s2 = Ok r2 →
        r2.2 <= r1.2).
Proof.
  intros Hmono.
  specialize (Hmono 10 40
    ([Difference.Rectangle (100, 100) (176, 136) (255, 0, 0) 2], 1)
    ([Difference.Rectangle (100, 100) (136, 136) (255, 0, 0) 2;
      Difference.Rectangle (140, 100) (176, 136) (255, 0, 0) 2], 2)).
  assert (2 <= 1) as Habsurd; [|lia].
  apply Hmono; [lia| |]; vm_compute; reflexivity.
Qed.

(* --------------------------------------------------------------------- *)
(** ** One inspection cycle                                                *)
(* --------------------------------------------------------------------- *)

Section Cycle.
Import Difference.
Context {Frame : Type}.
Variable cvtColor : Frame → list (list Z).
Variable findContours : list (list Z) → list (list (Z * Z)).
Variable boundingRect : list (Z * Z) → Z * Z * Z * Z.

Ltac pin_cases :=
  unfold PIN_LED_R, PIN_LED_G, PIN_LED_FLASH, PIN_SWITCH in *;
  repeat (rewrite lookup_insert || rewrite lookup_delete || rewrite lookup_empty);
  repeat case_decide; try done; try lia; eauto.

Lemma led_write_held pin level w old :
  pins w !! pin = Some (Led old) →
  led_write pin level w = (Ok (), set_led pin level w).
Proof. unfold led_write. by intros ->. Qed.

Lemma ready_insert_led pin level ps :
  pin = PIN_LED_R ∨ pin = PIN_LED_G ∨ pin = PIN_LED_FLASH →
  ready ps → ready (<[pin := Led level]> ps).
Proof.
  intros Hpin ([r Hr] & [g Hg] & [f Hf] & Hs & Hrest).
  unfold ready. destruct Hpin as [-> | [-> | ->]]; repeat split; try (pin_cases; fail).
  all: intros pin ? ? ? ?; rewrite lookup_insert_ne by done; by apply Hrest.
Qed.

(** The world a cycle leaves, from a page that holds its devices. *)
Lemma run_dif_ready sens average_jpg shot w :
  ready (pins w) →
  run_dif cvtColor findContours boundingRect sens average_jpg shot w
  = let w3 := note CameraCapture
                (set_led PIN_LED_FLASH true (note CameraConfigure (note CameraOpen w))) in
    match shot with
    | None => (Raise PiCameraError, note CameraClose w3)
    | Some image =>
        let w4 := set_led PIN_LED_FLASH false w3 in
        match detect findContours boundingRect average_jpg (cvtColor image) sens with
        | Raise e => (Raise e, note CameraClose w4)
        | Ok (drawn, obj) =>
            (Ok (image, drawn, obj),
             note CameraClose
               (if bool_decide (obj ≠ 0)
                then set_led PIN_LED_G false (set_led PIN_LED_R true w4)
                else set_led PIN_LED_G true (set_led PIN_LED_R false w4)))
        end
    end.
Proof.
  intros ([r Hr] & [g Hg] & [f Hf] & Hs & Hrest).
  unfold run_dif, with_PiCamera, with_, init_camera, capture, camera_event, modify,
    led_on, led_off, lift, raise.
  unfold mbind, M_bind, mret, M_ret. cbn beta iota zeta.
  rewrite (led_write_held _ _ _ f) by done.
  destruct shot as [image|]; [|done]. cbn beta iota zeta.
  rewrite (led_write_held _ _ _ true) by (simpl; pin_cases).
  destruct (detect _ _ _ _ _) as [[drawn obj]|e]; [|done].
  case_bool_decide; cbn beta iota zeta.
  - rewrite (led_write_held _ _ _ r) by (simpl; pin_cases).
    rewrite (led_write_held _ _ _ g) by (simpl; pin_cases). done.
  - rewrite (led_write_held _ _ _ r) by (simpl; pin_cases).
    rewrite (led_write_held _ _ _ g) by (simpl; pin_cases). done.
Qed.

Lemma init_inprogress_fresh w :
  pins w = ∅ →
  init_inprogress w
  = (Ok (), acquire PIN_LED_FLASH (Led false)
              (acquire PIN_LED_G (Led false)
                 (acquire PIN_LED_R (Led false)
                    (set_handler PIN_SWITCH (acquire PIN_SWITCH (Button false) w))))).
Proof.
  intros Hw. unfold init_inprogress, gpio_open, bind_when_pressed.
  unfold mbind, M_bind. cbn beta iota zeta.
  rewrite Hw, lookup_empty.
  repeat (cbn [pins set_handler acquire record]; cbn beta iota zeta;
          rewrite ?Hw, ?lookup_insert_eq, ?lookup_empty;
          try (rewrite !lookup_insert_ne by done)).
  done.
Qed.

Lemma inprogress2main_ready w :
  ready (pins w) →
  inprogress2main w
  = (Ok (), release PIN_SWITCH
              (release PIN_LED_FLASH (release PIN_LED_G (release PIN_LED_R w)))).
Proof.
  intros ([r Hr] & [g Hg] & [f Hf] & Hs & Hrest).
  unfold inprogress2main, gpio_close. unfold mbind, M_bind. cbn beta iota zeta.
  rewrite Hr. simpl. rewrite lookup_delete_ne, Hg by done. simpl.
  rewrite !lookup_delete_ne, Hf by done. simpl.
  rewrite !lookup_delete_ne, Hs by done. done.
Qed.

Lemma ready_released ps :
  ready ps →
  delete PIN_SWITCH (delete PIN_LED_FLASH (delete PIN_LED_G (delete PIN_LED_R ps))) = ∅.
Proof.
  intros (_ & _ & _ & _ & Hrest). apply map_eq. intros pin.
  rewrite lookup_empty.
  destruct (decide (pin = PIN_SWITCH)) as [->|]; [by rewrite lookup_delete_eq|].
  rewrite lookup_delete_ne by done.
  destruct (decide (pin = PIN_LED_FLASH)) as [->|]; [by rewrite lookup_delete_eq|].
  rewrite lookup_delete_ne by done.
  destruct (decide (pin = PIN_LED_G)) as [->|]; [by rewrite lookup_delete_eq|].
  rewrite lookup_delete_ne by done.
  destruct (decide (pin = PIN_LED_R)) as [->|]; [by rewrite lookup_delete_eq|].
  rewrite lookup_delete_ne by done. by apply Hrest.
Qed.

Lemma ready_acquired :
  ready (<[PIN_LED_FLASH := Led false]>
           (<[PIN_LED_G := Led false]>
              (<[PIN_LED_R := Led false]>
                 (<[PIN_SWITCH := Button true]> (<[PIN_SWITCH := Button false]> ∅))))).
Proof.
  unfold ready. repeat split; try (pin_cases; fail).
  intros pin ? ? ? ?. rewrite !lookup_insert_ne by done. apply lookup_empty.
Qed.

(** Indicator levels after a pin changes. *)
Lemma lit_insert_led pin level ps : lit pin (<[pin := Led level]> ps) = level.
Proof.
  unfold lit. rewrite lookup_insert_eq. destruct level.
  - by apply bool_decide_eq_true.
  - by apply bool_decide_eq_false.
Qed.

Lemma lit_insert_ne pin pin' d ps : pin' ≠ pin → lit pin (<[pin' := d]> ps) = lit pin ps.
Proof. intros. unfold lit. by rewrite lookup_insert_ne. Qed.

Lemma lit_empty pin : lit pin ∅ = false.
Proof. unfold lit. rewrite lookup_empty. by apply bool_decide_eq_false. Qed.

Lemma calm_nil : calm [].
Proof. intros e ps Hin. by apply elem_of_nil in Hin. Qed.

Lemma calm_snoc h e ps :
  calm h →
  (alert ps = true → ok ps = true → e = PinWrite PIN_LED_R true) →
  calm (h ++ [(e, ps)]).
Proof.
  intros Hh Hn e' ps' [Hin|Hin%list_elem_of_singleton]%elem_of_app; [by eapply Hh|].
  injection Hin as -> ->. done.
Qed.

Lemma calm_snoc_dark h e ps :
  calm h → alert ps && ok ps = false → calm (h ++ [(e, ps)]).
Proof.
  intros Hh Hd. apply calm_snoc; [done|]. intros Ha Ho. by rewrite Ha, Ho in Hd.
Qed.

Lemma settled_note e w : settled w → settled (note e w).
Proof. intros [Hc Hd]. split; [|done]. by apply calm_snoc_dark. Qed.

Lemma settled_set_flash level w : settled w → settled (set_led PIN_LED_FLASH level w).
Proof.
  intros [Hc Hd].
  assert (alert (<[PIN_LED_FLASH := Led level]> (pins w))
          && ok (<[PIN_LED_FLASH := Led level]> (pins w)) = false) as Hd'.
  { unfold alert, ok. by rewrite !lit_insert_ne. }
  split; [|done]. by apply calm_snoc_dark.
Qed.

Lemma settled_defect w :
  settled w → settled (set_led PIN_LED_G false (set_led PIN_LED_R true w)).
Proof.
  intros [Hc Hd].
  assert (alert (<[PIN_LED_G := Led false]> (<[PIN_LED_R := Led true]> (pins w)))
          && ok (<[PIN_LED_G := Led false]> (<[PIN_LED_R := Led true]> (pins w)))
          = false) as Hd'.
  { unfold ok. rewrite lit_insert_led. apply andb_false_r. }
  split; [|done]. cbn [hw pins set_led record].
  apply calm_snoc_dark; [|done]. by apply calm_snoc.
Qed.

Lemma settled_clear w :
  settled w → settled (set_led PIN_LED_G true (set_led PIN_LED_R false w)).
Proof.
  intros [Hc Hd].
  assert (alert (<[PIN_LED_R := Led false]> (pins w)) = false) as Hr.
  { unfold alert. apply lit_insert_led. }
  assert (alert (<[PIN_LED_G := Led true]> (<[PIN_LED_R := Led false]> (pins w)))
          = false) as Hg.
  { unfold alert in *. by rewrite lit_insert_ne. }
  split; cbn [hw pins set_led record].
  - apply calm_snoc_dark; [apply calm_snoc_dark; [done|]|]; by rewrite ?Hr, ?Hg.
  - by rewrite Hg.
Qed.

Lemma settled_acquire pin w :
  settled w → settled (acquire pin (Led false) w).
Proof.
  intros [Hc Hd].
  assert (alert (<[pin := Led false]> (pins w)) && ok (<[pin := Led false]> (pins w))
          = false) as Hd'.
  { unfold alert, ok.
    destruct (decide (pin = PIN_LED_R)) as [->|]; [by rewrite lit_insert_led|].
    destruct (decide (pin = PIN_LED_G)) as [->|];
      [rewrite lit_insert_led; apply andb_false_r|].
    by rewrite !lit_insert_ne. }
  split; [|done]. by apply calm_snoc_dark.
Qed.

Lemma settled_release pin w : settled w → settled (release pin w).
Proof.
  intros [Hc Hd].
  assert (∀ p, lit p (delete pin (pins w)) = true → lit p (pins w) = true) as Hlit.
  { intros p. unfold lit. rewrite !bool_decide_eq_true.
    destruct (decide (pin = p)) as [->|]; [by rewrite lookup_delete_eq|].
    by rewrite lookup_delete_ne. }
  assert (alert (delete pin (pins w)) && ok (delete pin (pins w)) = false) as Hd'.
  { apply andb_false_iff. apply andb_false_iff in Hd as [Hd|Hd]; [left|right];
      apply not_true_is_false; intros Ht%Hlit; unfold alert, ok in *; congruence. }
  split; [|done]. by apply calm_snoc_dark.
Qed.

(** Every run of [run_dif] from a page that holds its devices leaves the
  page holding them, with alert and ok never left on together. *)
Lemma run_dif_keeps sens average_jpg shot w r w' :
  ready (pins w) → settled w →
  run_dif cvtColor findContours boundingRect sens average_jpg shot w = (r, w') →
  ready (pins w') ∧ settled w'.
Proof.
  intros Hready Hsettled. rewrite run_dif_ready by done. cbn zeta.
  assert (∀ l, ready (<[PIN_LED_FLASH := Led l]> (pins w))) as Hf
    by (intros; by apply ready_insert_led; auto).
  destruct shot as [image|].
  - destruct (detect _ _ _ _ _) as [[drawn obj]|e]; [case_bool_decide|];
      intros [= <- <-]; (split;
        [cbn [pins note set_led record]; repeat apply ready_insert_led; auto
        |repeat first [apply settled_note | apply settled_defect
                      | apply settled_clear | apply settled_set_flash]; done]).
  - intros [= <- <-]. split; [cbn [pins note set_led record]; auto|].
    repeat first [apply settled_note | apply settled_set_flash]. done.
Qed.

(** What holds of the page in every state it can reach. *)
Lemma reachable_page f :
  reachable cvtColor findContours boundingRect f →
  page_pins (shown f) (pins (hardware f)) ∧ settled (hardware f).
Proof.
  induction 1 as [|f f' _ [Hpins Hsettled] Hstep].
  - split; [done|]. split; [apply calm_nil|]. cbn. unfold alert. by rewrite lit_empty.
  - destruct Hstep as [f v Hpage _|f w' Hpage Hrun|f e w' Hpage Hrun
                      |f average_jpg shot r w' Hpage Hrun|f w' Hpage Hrun];
      rewrite Hpage in Hpins; cbn [shown hardware page_pins] in *.
    + done.
    + rewrite init_inprogress_fresh in Hrun by done. injection Hrun as <-.
      split.
      * cbn [pins acquire set_handler record]. rewrite Hpins. apply ready_acquired.
      * repeat apply settled_acquire. destruct Hsettled as [Hc Hd].
        assert (alert (pins (hardware f)) = false) as Hdark.
        { rewrite Hpins. apply lit_empty. }
        unfold alert in Hdark.
        split; cbn [hw pins set_handler acquire record];
          [apply calm_snoc_dark; [done|]|]; unfold alert;
          rewrite !lit_insert_ne by done; by rewrite Hdark.
    + rewrite init_inprogress_fresh in Hrun by done. discriminate.
    + by eapply run_dif_keeps.
    + rewrite inprogress2main_ready in Hrun by done. injection Hrun as <-.
      split; [cbn [pins release record]; by apply ready_released|].
      by repeat apply settled_release.
Qed.

Lemma detect_Ok average_jpg image_gray sens drawn obj :
  detect findContours boundingRect average_jpg image_gray sens = Ok (drawn, obj) →
  ∃ thresh,
    binarize average_jpg image_gray sens = Ok thresh ∧
    drawn = outline <$> filter (λ r, passes r) (boundingRect <$> findContours thresh) ∧
    obj = Z.of_nat (length drawn).
Proof.
  unfold detect. destruct (binarize average_jpg image_gray sens) as [thresh|e];
    [|discriminate].
  rewrite mark_filter. intros [= <- <-]. exists thresh.
  by rewrite length_fmap.
Qed.

(** C5, as it holds.  After every detection cycle [obj] counts the regions
  that passed the size filter, alert is on exactly when there is one, ok
  is on exactly when there is none, so the two are not both on once the
  cycle is over.  Over the whole history of the page they are on
  together only in the state that [led_r.on()] leaves, until
  [led_g.off()] runs. *)
Theorem indicators_follow_detection f average_jpg shot image drawn obj w' :
  reachable cvtColor findContours boundingRect f →
  shown f = InprogressPage →
  run_dif cvtColor findContours boundingRect (sens f) average_jpg shot (hardware f)
  = (Ok (image, drawn, obj), w') →
  (∃ thresh,
      binarize average_jpg (cvtColor image) (sens f) = Ok thresh ∧
      drawn = outline <$> filter (λ r, passes r) (boundingRect <$> findContours thresh)) ∧
  obj = Z.of_nat (length drawn) ∧
  (obj ≠ 0 ↔ drawn ≠ []) ∧
  alert (pins w') = bool_decide (obj ≠ 0) ∧
  ok (pins w') = bool_decide (obj = 0) ∧
  ¬ (alert (pins w') = true ∧ ok (pins w') = true) ∧
  (∀ e ps, (e, ps) ∈ hw w' →
           alert ps = true → ok ps = true → e = PinWrite PIN_LED_R true).
Proof.
  intros [Hready Hsettled]%reachable_page Hpage Hrun. rewrite Hpage in Hready.
  cbn [page_pins] in Hready.
  destruct (run_dif_keeps _ _ _ _ _ _ Hready Hsettled Hrun) as [_ [Hcalm Hdark]].
  rewrite run_dif_ready in Hrun by done. cbn zeta in Hrun.
  destruct shot as [image'|]; [|discriminate].
  destruct (detect _ _ _ _ _) as [[drawn' obj']|e] eqn:Hdetect; [|discriminate].
  injection Hrun as -> -> -> <-.
  destruct (detect_Ok _ _ _ _ _ Hdetect) as (thresh & Hthresh & Hdrawn & Hobj).
  split; [by exists thresh|]. split; [done|].
  split; [rewrite Hobj; destruct drawn; simpl; split; (done || lia)|].
  unfold alert, ok in *. case_bool_decide as Hz; cbn [pins note set_led record] in *.
  - rewrite lit_insert_led, lit_insert_ne, lit_insert_led by done.
    rewrite bool_decide_eq_false_2 by done. repeat split; [by intros [_ ?]|done].
  - rewrite lit_insert_led, lit_insert_ne, lit_insert_led by done.
    rewrite bool_decide_eq_true_2 by (destruct (decide (obj = 0)); [done|by destruct Hz]).
    repeat split; [by intros [? _]|done].
Qed.

(** C7. Whenever the page goes from its in-progress frame back to the
  main frame, the three indicator LEDs and the switch are closed, in
  that order: no pin remains held and no indicator remains on. *)
Theorem teardown_releases_everything f f' :
  reachable cvtColor findContours boundingRect f →
  step cvtColor findContours boundingRect f f' →
  shown f = InprogressPage → shown f' = MainPage →
  pins (hardware f') = ∅ ∧
  alert (pins (hardware f')) = false ∧
  ok (pins (hardware f')) = false ∧
  flash (pins (hardware f')) = false ∧
  events_since (hardware f) (hardware f')
  = [PinClose PIN_LED_R; PinClose PIN_LED_G; PinClose PIN_LED_FLASH; PinClose PIN_SWITCH].
Proof.
  intros [Hready _]%reachable_page Hstep Hpage Hpage'.
  rewrite Hpage in Hready. cbn [page_pins] in Hready.
  destruct Hstep as [f v Hmain _|f w' Hmain Hrun|f e w' Hmain Hrun
                    |f average_jpg shot r w' _ Hrun|f w' _ Hrun];
    try congruence; try discriminate.
  rewrite inprogress2main_ready in Hrun by done. injection Hrun as <-.
  cbn [hardware]. unfold events_since. cbn [pins hw release record].
  rewrite (ready_released _ Hready). unfold alert, ok, flash. rewrite !lit_empty.
  repeat split. rewrite <- !app_assoc, drop_app_length. done.
Qed.



End Cycle.

(* --------------------------------------------------------------------- *)
(** ** Calibration: the files of a run                                     *)
(* --------------------------------------------------------------------- *)

Section CalibrationFiles.
Import Calibration.
Context {Img : Type}.
Variable average : list Img → Img.

Lemma img_name_not_average i : img_name i ≠ "average.jpg".
Proof. unfold img_name. simpl. discriminate. Qed.

Lemma capture_Ok fn (w w' : @world Img) :
  capture fn w = (Ok (), w') →
  ∃ img, files w' = <[fn := img]> (files w).
Proof.
  unfold capture. destruct (sensor w) as [|[img|] rest]; intros [= <-]. by exists img.
Qed.

Lemma image_open_Ok fn (w w' : @world Img) img :
  image_open fn w = (Ok img, w') → w' = w ∧ files w !! fn = Some img.
Proof.
  unfold image_open. destruct (files w !! fn) as [img'|] eqn:Hfn; intros [= <- <-]. done.
Qed.

Lemma os_remove_Ok fn (w w' : @world Img) :
  os_remove fn w = (Ok (), w') → files w' = delete fn (files w).
Proof.
  unfold os_remove. destruct (files w !! fn) as [img|]; intros [= <-]. done.
Qed.

Lemma capture_loop_Ok range fns fns' (w w' : @world Img) :
  capture_loop range fns w = (Ok fns', w') →
  ∀ fn, fn ∉ img_name <$> range → files w' !! fn = files w !! fn.
Proof.
  revert fns w. induction range as [|i range IH]; intros fns w; cbn [capture_loop].
  - by intros [= <- <-].
  - intros ([] & w1 & Hcap & (img & w2 & Hopen & Hloop)%bind_Ok)%bind_Ok fn Hfn.
    apply capture_Ok in Hcap as [img' Hfiles].
    apply image_open_Ok in Hopen as [-> _].
    rewrite fmap_cons, not_elem_of_cons in Hfn. destruct Hfn as [Hne Hfn].
    rewrite (IH _ _ Hloop fn Hfn), Hfiles. by rewrite lookup_insert_ne.
Qed.


Lemma remove_loop_Ok range (w w' : @world Img) :
  for_each range (λ i, os_remove (img_name i)) w = (Ok (), w') →
  ∀ fn, files w' !! fn
        = if decide (fn ∈ img_name <$> range) then None else files w !! fn.
Proof.
  revert w. induction range as [|i range IH]; intros w; cbn [for_each].
  - intros [= <-] fn. rewrite decide_False; [done|]. apply not_elem_of_nil.
  - intros ([] & w1 & Hrm%os_remove_Ok & Hloop)%bind_Ok fn.
    rewrite (IH _ Hloop fn), Hrm, fmap_cons.
    destruct (decide (fn ∈ img_name <$> range)) as [Hin|Hout].
    + rewrite decide_True; [done|]. by apply list_elem_of_further.
    + destruct (decide (fn = img_name i)) as [->|Hne].
      * rewrite decide_True by apply list_elem_of_here. apply lookup_delete_eq.
      * rewrite decide_False by (by apply not_elem_of_cons). by apply lookup_delete_ne.
Qed.



(** *** A calibration with enough good captures succeeds *)

Lemma pretty_N_go_head (x : N) (s : string) :
  (0 < x)%N → ∃ c rest, pretty_N_go x s = String c rest ∧ c ≠ "0"%char.
Proof.
  revert s. induction (N.lt_wf_0 x) as [x _ IH]. intros s Hx.
  rewrite pretty_N_go_step by done.
  destruct (decide (x `div` 10 = 0)%N) as [Hdiv|Hdiv].
  - rewrite Hdiv, pretty_N_go_0. eexists _, _. split; [done|].
    assert (x < 10)%N as Hlt by (by apply N.div_small_iff in Hdiv).
    rewrite N.mod_small by done. intros Hzero.
    apply (pretty_N_char_inj x 0) in Hzero; lia.
  - apply IH; [apply N.div_lt; lia|by apply N.neq_0_lt_0].
Qed.

Lemma pretty_head (i : Z) :
  1 <= i → ∃ c rest, pretty i = String c rest ∧ c ≠ "0"%char.
Proof.
  destruct i as [|p|p]; [lia| |lia]. intros _.
  unfold pretty, pretty_Z, pretty, pretty_positive, pretty, pretty_N.
  rewrite decide_False by done. by apply pretty_N_go_head.
Qed.

Lemma rjust_two_inj (c1 c2 : ascii) (r1 r2 : string) :
  c1 ≠ "0"%char → c2 ≠ "0"%char →
  rjust 2 "0" (String c1 r1) = rjust 2 "0" (String c2 r2) →
  String c1 r1 = String c2 r2.
Proof.
  intros H1 H2. unfold rjust.
  destruct r1 as [|d1 r1], r2 as [|d2 r2]; cbn; intros Heq.
  - by injection Heq as ->.
  - injection Heq as Hc _. by destruct H2.
  - injection Heq as Hc _. by destruct H1.
  - done.
Qed.

Lemma append_suffix_inj (s1 s2 t : string) : s1 +:+ t = s2 +:+ t → s1 = s2.
Proof.
  assert (∀ s u : string, String.length (s +:+ u) = (String.length s + String.length u)%nat)
    as Hlen by (intros s u; induction s as [|c s IHs]; simpl; [done|by rewrite IHs]).
  revert s2. induction s1 as [|c1 s1 IH]; intros [|c2 s2] Heq; simpl in Heq.
  - done.
  - apply (f_equal String.length) in Heq. rewrite ?Hlen in Heq. simpl in Heq.
    rewrite ?Hlen in Heq. lia.
  - apply (f_equal String.length) in Heq. rewrite ?Hlen in Heq. simpl in Heq.
    rewrite ?Hlen in Heq. lia.
  - injection Heq as -> Heq. f_equal. by apply IH.
Qed.

Lemma img_name_inj (i j : Z) : 1 <= i → 1 <= j → img_name i = img_name j → i = j.
Proof.
  intros Hi Hj. unfold img_name. intros Heq%(inj (String.app "img")).
  apply append_suffix_inj in Heq.
  destruct (pretty_head i Hi) as (c1 & r1 & Hpi & Hc1).
  destruct (pretty_head j Hj) as (c2 & r2 & Hpj & Hc2).
  rewrite Hpi, Hpj in Heq. apply rjust_two_inj in Heq; [|done..].
  apply (inj pretty). congruence.
Qed.

Lemma img_names_NoDup (n : Z) : NoDup (img_name <$> seqZ 1 n).
Proof.
  apply NoDup_fmap_2_strong; [|apply NoDup_seqZ].
  intros i j Hi%elem_of_seqZ Hj%elem_of_seqZ. apply img_name_inj; lia.
Qed.

Lemma capture_loop_runs range fns (w : @world Img) shots rest :
  sensor w = (Some <$> shots) ++ rest → length shots = length range →
  ∃ w', capture_loop range fns w = (Ok (fns ++ (img_name <$> range)), w') ∧
        (∀ fn, is_Some (files w !! fn) ∨ fn ∈ img_name <$> range →
               is_Some (files w' !! fn)).
Proof.
  revert fns w shots. induction range as [|i range IH]; intros fns w shots Hs Hlen.
  - exists w. rewrite app_nil_r. split; [done|]. intros fn [?|[]%elem_of_nil]. done.
  - destruct shots as [|img shots]; [discriminate|]. injection Hlen as Hlen.
    set (w1 := World (<[img_name i := img]> (files w)) ((Some <$> shots) ++ rest)
                 (hw w ++ [CameraCapture])).
    destruct (IH (fns ++ [img_name i]) w1 shots eq_refl Hlen) as (w' & Hloop & Hfiles).
    exists w'. split.
    + cbn [capture_loop]. unfold mbind, M_bind, capture, image_open.
      rewrite Hs. cbn [fmap list_fmap app files]. rewrite lookup_insert_eq.
      fold w1. rewrite Hloop. by rewrite <- app_assoc.
    + intros fn Hfn. apply Hfiles. rewrite fmap_cons, elem_of_cons in Hfn.
      destruct (decide (fn = img_name i)) as [->|Hne].
      * left. subst w1. cbn [files]. rewrite lookup_insert_eq. eauto.
      * destruct Hfn as [Hfn|[?|?]]; [left|done|by right].
        subst w1. cbn [files]. by rewrite lookup_insert_ne.
Qed.

Lemma open_all_runs fns images (w : @world Img) :
  (∀ fn, fn ∈ fns → is_Some (files w !! fn)) →
  ∃ images', open_all fns images w = (Ok images', w) ∧
             length images' = (length images + length fns)%nat.
Proof.
  revert images. induction fns as [|fn fns IH]; intros images Hfns.
  - exists images. split; [done|]. simpl. lia.
  - destruct (Hfns fn) as [img Himg]; [apply list_elem_of_here|].
    destruct (IH (images ++ [img])) as (images' & Hrun & Hlen).
    { intros fn' Hin. apply Hfns. by apply list_elem_of_further. }
    exists images'. split.
    + cbn [open_all]. unfold mbind, M_bind, image_open. by rewrite Himg.
    + rewrite Hlen, length_app. simpl. lia.
Qed.

Lemma remove_loop_runs range (w : @world Img) :
  NoDup (img_name <$> range) →
  (∀ i, i ∈ range → is_Some (files w !! img_name i)) →
  ∃ w', for_each range (λ i, os_remove (img_name i)) w = (Ok (), w').
Proof.
  revert w. induction range as [|i range IH]; intros w Hnodup Hfiles.
  - by exists w.
  - rewrite fmap_cons in Hnodup. apply NoDup_cons in Hnodup as [Hfresh Hnodup].
    destruct (Hfiles i) as [img Himg]; [apply list_elem_of_here|].
    destruct (IH (World (delete (img_name i) (files w)) (sensor w) (hw w)) Hnodup)
      as [w' Hloop].
    { intros j Hj. cbn [files]. rewrite lookup_delete_ne.
      - apply Hfiles. by apply list_elem_of_further.
      - intros Heq. apply Hfresh. rewrite Heq. by apply list_elem_of_fmap_2. }
    exists w'. cbn [for_each]. unfold mbind, M_bind, os_remove at 1. by rewrite Himg.
Qed.

(** With [num_total >= 1] and that many good captures waiting, the
  calibration runs to its end. *)
Lemma calibrate_start_succeeds (num_total : Z) (w : @world Img) shots rest :
  1 <= num_total →
  sensor w = (Some <$> shots) ++ rest → length shots = Z.to_nat num_total →
  ∃ w', calibrate_start average num_total w = (Ok (), w').
Proof.
  intros Hn Hsensor Hlen.
  set (w1 := World (files w) (sensor w) ((hw w ++ [CameraOpen]) ++ [CameraConfigure])).
  destruct (capture_loop_runs (seqZ 1 num_total) [] w1 shots rest Hsensor)
    as (w2 & Hcapture & Hfiles); [by rewrite length_seqZ|].
  destruct (open_all_runs (img_name <$> seqZ 1 num_total) [] w2)
    as (images & Hopen & Himages); [intros fn Hfn; apply Hfiles; by right|].
  destruct images as [|img images].
  { rewrite length_fmap, length_seqZ in Himages. simpl in Himages. lia. }
  set (w3 := World (<["average.jpg" := average (img :: images)]> (files w2))
                   (sensor w2) (hw w2)).
  destruct (remove_loop_runs (seqZ 1 num_total) w3 (img_names_NoDup num_total))
    as [w4 Hremove].
  { intros i Hi. subst w3. cbn [files].
    rewrite lookup_insert_ne by (intros Heq; by destruct (img_name_not_average i)).
    apply Hfiles. right. by apply list_elem_of_fmap_2. }
  cbn [app] in Hcapture.
  eexists. unfold calibrate_start, with_PiCamera, with_.
  rewrite (bind_run _ _ _ () w1) by done.
  rewrite (bind_run _ _ _ _ _ Hcapture).
  rewrite (bind_run _ _ _ _ _ Hopen).
  rewrite (bind_run _ _ _ () w2) by done.
  rewrite (bind_run _ _ _ () w3) by done.
  rewrite (bind_run _ _ _ (average (img :: images)) w3)
    by (unfold image_open; subst w3; cbn [files]; by rewrite lookup_insert_eq).
  rewrite Hremove. reflexivity.
Qed.

End CalibrationFiles.

(* --------------------------------------------------------------------- *)
(** ** Arguments out of range                                               *)
(* --------------------------------------------------------------------- *)

Section Validation.
Context {Frame Img : Type}.
Variable cvtColor : Frame → list (list Z).
Variable findContours : list (list Z) → list (list (Z * Z)).
Variable boundingRect : list (Z * Z) → Z * Z * Z * Z.
Variable average : list Img → Img.


End Validation.

(* --------------------------------------------------------------------- *)
(** ** Runs on the concrete scenes                                          *)
(* --------------------------------------------------------------------- *)

Lemma armed_page_reachable :
  Difference.reachable OpenCV.cvtColor_BGR2GRAY OpenCV.findContours OpenCV.boundingRect
    Scenes.armed_page.
Proof.
  eapply Difference.reachable_step; [apply Difference.reachable_initial|].
  apply (Difference.step_begin _ _ _ Difference.initial Scenes.armed); reflexivity.
Defined.


(** C5, as stated, fails in its last clause: after a clean cycle (ok on), a
  cycle that finds a defect switches alert on while ok is still on. *)
Lemma alert_and_ok_on_together_during_update :
  ¬ (∀ f,
       Difference.reachable OpenCV.cvtColor_BGR2GRAY OpenCV.findContours
         OpenCV.boundingRect f →
       ∀ e ps, (e, ps) ∈ Difference.hw (Difference.hardware f) →
               ¬ (Difference.alert ps = true ∧ Difference.ok ps = true)).
Proof.
  intros Hnever.
  set (w2 := (Scenes.cycle 25 Scenes.clean Scenes.armed).2).
  set (w3 := (Scenes.cycle 25 Scenes.bridged w2).2).
  assert (Difference.reachable OpenCV.cvtColor_BGR2GRAY OpenCV.findContours
            OpenCV.boundingRect
            (Difference.FrameState Difference.InprogressPage 25 w3)) as Hreach.
  { eapply Difference.reachable_step.
    - eapply Difference.reachable_step; [apply armed_page_reachable|].
      apply (Difference.step_pressed _ _ _ Scenes.armed_page
               (Some Scenes.black) (Some Scenes.clean)
               (Scenes.cycle 25 Scenes.clean Scenes.armed).1 w2); [reflexivity|].
      apply surjective_pairing.
    - apply (Difference.step_pressed _ _ _
               (Difference.FrameState Difference.InprogressPage 25 w2)
               (Some Scenes.black) (Some Scenes.bridged)
               (Scenes.cycle 25 Scenes.bridged w2).1 w3); [reflexivity|].
      apply surjective_pairing. }
  assert (existsb (λ eps, Difference.alert eps.2 && Difference.ok eps.2)
            (Difference.hw w3) = true) as Hboth by (vm_compute; reflexivity).
  apply existsb_exists in Hboth as ([e ps] & Hin%list_elem_of_In & Hlit).
  apply andb_true_iff in Hlit. by apply (Hnever _ Hreach e ps).
Qed.

Lemma indicators_follow_detection_on_a_clean_frame :
  Difference.reachable OpenCV.cvtColor_BGR2GRAY OpenCV.findContours OpenCV.boundingRect
    Scenes.armed_page ∧
  Difference.shown Scenes.armed_page = Difference.InprogressPage ∧
  Scenes.cycle 25 Scenes.clean Scenes.armed
  = (Ok (Scenes.clean, [], 0), (Scenes.cycle 25 Scenes.clean Scenes.armed).2) ∧
  Difference.alert (Difference.pins (Scenes.cycle 25 Scenes.clean Scenes.armed).2)
  = bool_decide (0 ≠ 0) ∧
  Difference.ok (Difference.pins (Scenes.cycle 25 Scenes.clean Scenes.armed).2)
  = bool_decide (0 = 0).
Proof.
  assert (Scenes.cycle 25 Scenes.clean Scenes.armed
          = (Ok (Scenes.clean, [], 0), (Scenes.cycle 25 Scenes.clean Scenes.armed).2))
    as Hrun by (vm_compute; reflexivity).
  split; [apply armed_page_reachable|]. split; [reflexivity|]. split; [exact Hrun|].
  destruct (indicators_follow_detection
              OpenCV.cvtColor_BGR2GRAY OpenCV.findContours OpenCV.boundingRect
              Scenes.armed_page (Some Scenes.black) (Some Scenes.clean)
              Scenes.clean [] 0 (Scenes.cycle 25 Scenes.clean Scenes.armed).2
              armed_page_reachable eq_refl Hrun)
    as (_ & _ & _ & Halert & Hok & _).
  split; [exact Halert|exact Hok].
Defined.

Lemma teardown_releases_everything_after_begin :
  Difference.reachable OpenCV.cvtColor_BGR2GRAY OpenCV.findContours OpenCV.boundingRect
    Scenes.armed_page ∧
  Difference.step OpenCV.cvtColor_BGR2GRAY OpenCV.findContours OpenCV.boundingRect
    Scenes.armed_page
    (Difference.FrameState Difference.MainPage 25
       (Difference.inprogress2main Scenes.armed).2) ∧
  Difference.pins (Difference.inprogress2main Scenes.armed).2 = ∅ ∧
  Difference.alert (Difference.pins (Difference.inprogress2main Scenes.armed).2) = false ∧
  Difference.ok (Difference.pins (Difference.inprogress2main Scenes.armed).2) = false ∧
  Difference.flash (Difference.pins (Difference.inprogress2main Scenes.armed).2) = false ∧
  Difference.events_since Scenes.armed (Difference.inprogress2main Scenes.armed).2
  = [PinClose Difference.PIN_LED_R; PinClose Difference.PIN_LED_G;
     PinClose Difference.PIN_LED_FLASH; PinClose Difference.PIN_SWITCH].
Proof.
  assert (Difference.step OpenCV.cvtColor_BGR2GRAY OpenCV.findContours
            OpenCV.boundingRect Scenes.armed_page
            (Difference.FrameState Difference.MainPage 25
               (Difference.inprogress2main Scenes.armed).2)) as Hstep.
  { apply (Difference.step_back _ _ _ Scenes.armed_page); reflexivity. }
  split; [apply armed_page_reachable|]. split; [exact Hstep|].
  exact (teardown_releases_everything
           OpenCV.cvtColor_BGR2GRAY OpenCV.findContours OpenCV.boundingRect
           Scenes.armed_page _ armed_page_reachable Hstep eq_refl eq_refl).
Defined.



(* ===================================================================== *)
(** * Part III: further properties of the code                            *)
(* ===================================================================== *)

(* --------------------------------------------------------------------- *)
(** ** frames.py: the other setting widgets                                *)
(* --------------------------------------------------------------------- *)

Section MoreFrames.
Import Frames.

Ltac plain t :=
  lazymatch t with
  | context [Z.leb] => fail
  | context [Z.ltb] => fail
  | _ => idtac
  end.

Ltac split_guards :=
  repeat (match goal with
          | |- context [Z.leb ?a ?b] => plain a; plain b; destruct (Z.leb_spec a b)
          | |- context [Z.ltb ?a ?b] => plain a; plain b; destruct (Z.ltb_spec a b)
          end; cbn [andb]);
  try lia.

(** X1. Whatever integer the contrast variable holds, both handlers store a
    value in [-100, 100]. *)
Theorem contrast_stays_in_range (v : Z) :
  -100 <= ContrastFrame.add v <= 100 ∧ -100 <= ContrastFrame.sub v <= 100.
Proof.
  unfold ContrastFrame.add, ContrastFrame.sub, CON_DELTA. split; split_guards.
Qed.

(** X2. Whatever integer the sharpness variable holds, both handlers store a
    value in [-100, 100]. *)
Theorem sharpness_stays_in_range (v : Z) :
  -100 <= SharpnessFrame.add v <= 100 ∧ -100 <= SharpnessFrame.sub v <= 100.
Proof.
  unfold SharpnessFrame.add, SharpnessFrame.sub, SHA_DELTA. split; split_guards.
Qed.

(** X3. The two widgets differ at the lower end.  Below [SHA_DELTA - 100] the
    sharpness decrement stores 0, so from a valid value in [-100, -91] the
    minus button raises the value; the contrast decrement stores -100
    there.  The contrast increment stores 0 for a value below -100 where
    the sharpness increment stores -100. *)
Theorem sharpness_sub_jumps_to_zero (v : Z) :
  v < SHA_DELTA - 100 →
  SharpnessFrame.sub v = 0 ∧ ContrastFrame.sub v = -100 ∧
  (v < -100 → ContrastFrame.add v = 0 ∧ SharpnessFrame.add v = -100).
Proof.
  unfold SharpnessFrame.sub, ContrastFrame.sub, SharpnessFrame.add,
    ContrastFrame.add, SHA_DELTA, CON_DELTA.
  intros Hv. repeat split; try intros Hlow; split_guards.
Qed.

Lemma sharpness_sub_jumps_to_zero_at_minus_100 :
  -100 < SHA_DELTA - 100 ∧
  SharpnessFrame.sub (-100) = 0 ∧ ContrastFrame.sub (-100) = -100 ∧
  (-100 < -100 → ContrastFrame.add (-100) = 0 ∧ SharpnessFrame.add (-100) = -100).
Proof.
  split; [reflexivity|]. apply (sharpness_sub_jumps_to_zero (-100)). reflexivity.
Defined.

(** X4. The value the shutter-speed increment computes is always in
    [SHU_MIN, SHU_MAX]; the decrement gets past its branches exactly for
    values from [SHU_MIN + SHU_DELTA] upwards, and what it then computes
    is in [SHU_MIN, SHU_MAX] as well. *)
Theorem shutter_stays_in_range (v : Z) :
  SHU_MIN <= ShutterSpeedFrame.add v <= SHU_MAX ∧
  (is_ok (ShutterSpeedFrame.sub v) = true ↔ SHU_MIN + SHU_DELTA <= v) ∧
  (∀ r, ShutterSpeedFrame.sub v = Ok r → SHU_MIN <= r <= SHU_MAX).
Proof.
  unfold ShutterSpeedFrame.add, ShutterSpeedFrame.sub, SHU_MIN, SHU_MAX, SHU_DELTA.
  split; [split_guards|]. split.
  - split_guards; cbn; split; (done || lia).
  - intros r. split_guards; intros [= <-]; lia.
Qed.

(** X5. Plus then minus, and minus then plus, give the value back wherever the
    first press does not clamp. *)
Theorem plus_and_minus_undo_each_other (v : Z) :
  (0 <= v <= 100 - BRI_DELTA → BrightnessFrame.sub (BrightnessFrame.add v) = v) ∧
  (BRI_DELTA <= v <= 100 → BrightnessFrame.add (BrightnessFrame.sub v) = v) ∧
  (-100 <= v <= 100 - CON_DELTA → ContrastFrame.sub (ContrastFrame.add v) = v) ∧
  (CON_DELTA - 100 <= v <= 100 → ContrastFrame.add (ContrastFrame.sub v) = v) ∧
  (-100 <= v <= 100 - SHA_DELTA → SharpnessFrame.sub (SharpnessFrame.add v) = v) ∧
  (SHA_DELTA - 100 <= v <= 100 → SharpnessFrame.add (SharpnessFrame.sub v) = v) ∧
  (SHU_MIN <= v <= SHU_MAX - SHU_DELTA →
   ShutterSpeedFrame.sub (ShutterSpeedFrame.add v) = Ok v) ∧
  (SHU_MIN + SHU_DELTA <= v <= SHU_MAX →
   ∃ r, ShutterSpeedFrame.sub v = Ok r ∧ ShutterSpeedFrame.add r = v).
Proof.
  unfold BrightnessFrame.add, BrightnessFrame.sub, ContrastFrame.add,
    ContrastFrame.sub, SharpnessFrame.add, SharpnessFrame.sub,
    ShutterSpeedFrame.add, ShutterSpeedFrame.sub,
    BRI_DELTA, CON_DELTA, SHA_DELTA, SHU_MIN, SHU_MAX, SHU_DELTA.
  repeat apply conj; intros Hv; try (split_guards; f_equal; lia).
  exists (v - 100). split; split_guards; done.
Qed.

End MoreFrames.

(* --------------------------------------------------------------------- *)
(** ** Calibration: what is averaged, and a capture that fails             *)
(* --------------------------------------------------------------------- *)

Section CalibrationRuns.
Import Calibration.
Context {Img : Type}.
Variable average : list Img → Img.

Lemma bind_raises {W A B} (m : M W A) (k : A → M W B) w e w1 :
  m w = (Raise e, w1) → (m ≫= k) w = (Raise e, w1).
Proof. unfold mbind, M_bind. by intros ->. Qed.

Lemma capture_loop_stores range fns (w : @world Img) shots rest :
  sensor w = (Some <$> shots) ++ rest → length shots = length range →
  NoDup (img_name <$> range) →
  ∃ w', capture_loop range fns w = (Ok (fns ++ (img_name <$> range)), w') ∧
        sensor w' = rest ∧
        hw w' = hw w ++ replicate (length range) CameraCapture ∧
        Forall2 (λ fn img, files w' !! fn = Some img) (img_name <$> range) shots.
Proof.
  revert fns w shots. induction range as [|i range IH]; intros fns w shots Hs Hlen Hnodup.
  - destruct shots; [|discriminate]. exists w. cbn. rewrite !app_nil_r. done.
  - destruct shots as [|img shots]; [discriminate|]. injection Hlen as Hlen.
    rewrite fmap_cons in Hnodup. apply NoDup_cons in Hnodup as [Hfresh Hnodup].
    set (w1 := World (<[img_name i := img]> (files w)) ((Some <$> shots) ++ rest)
                 (hw w ++ [CameraCapture])).
    destruct (IH (fns ++ [img_name i]) w1 shots eq_refl Hlen Hnodup)
      as (w' & Hloop & Hsensor & Hhw & Hfiles).
    exists w'. split; [|split; [done|split]].
    + cbn [capture_loop].
      rewrite (bind_run _ _ _ () w1) by (unfold capture; by rewrite Hs).
      rewrite (bind_run _ _ _ img w1)
        by (unfold image_open; subst w1; cbn [files]; by rewrite lookup_insert_eq).
      rewrite Hloop. by rewrite <- app_assoc.
    + rewrite Hhw. subst w1. cbn [hw length replicate]. by rewrite <- app_assoc.
    + rewrite fmap_cons. constructor; [|done].
      rewrite (capture_loop_Ok _ _ _ _ _ Hloop _ Hfresh). subst w1. cbn [files].
      apply lookup_insert_eq.
Qed.

Lemma open_all_reads fns images (w : @world Img) imgs :
  Forall2 (λ fn img, files w !! fn = Some img) fns imgs →
  open_all fns images w = (Ok (images ++ imgs), w).
Proof.
  intros Hall. revert images.
  induction Hall as [|fn img fns imgs Hfn _ IH]; intros images; cbn [open_all].
  - by rewrite app_nil_r.
  - rewrite (bind_run _ _ _ img w) by (unfold image_open; by rewrite Hfn).
    rewrite IH. by rewrite <- app_assoc.
Qed.

(** X6. With [num_total >= 1] good captures waiting, the calibration succeeds,
    takes exactly [num_total] captures between opening and closing the
    camera, and the baseline it writes is the average of exactly those
    frames, in the order they were captured. *)
Theorem calibration_averages_the_captures
    (num_total : Z) (w : @world Img) shots rest :
  1 <= num_total →
  sensor w = (Some <$> shots) ++ rest → length shots = Z.to_nat num_total →
  ∃ w', calibrate_start average num_total w = (Ok (), w') ∧
        files w' !! "average.jpg" = Some (average shots) ∧
        sensor w' = rest ∧
        hw w' = hw w ++ [CameraOpen; CameraConfigure]
                  ++ replicate (Z.to_nat num_total) CameraCapture ++ [CameraClose].
Proof.
  intros Hn Hsensor Hlen.
  set (w1 := World (files w) (sensor w) ((hw w ++ [CameraOpen]) ++ [CameraConfigure])).
  destruct (capture_loop_stores (seqZ 1 num_total) [] w1 shots rest Hsensor)
    as (w2 & Hcapture & Hrest & Hhw & Hfiles);
    [by rewrite length_seqZ|apply img_names_NoDup|].
  cbn [app] in Hcapture.
  pose proof (open_all_reads _ [] _ _ Hfiles) as Hopen. cbn [app] in Hopen.
  destruct shots as [|img shots].
  { simpl in Hlen. lia. }
  set (w3 := World (<["average.jpg" := average (img :: shots)]> (files w2))
                   (sensor w2) (hw w2)).
  destruct (remove_loop_runs (seqZ 1 num_total) w3 (img_names_NoDup num_total))
    as [w4 Hremove].
  { intros i Hi. subst w3. cbn [files].
    rewrite lookup_insert_ne by (intros Heq; by destruct (img_name_not_average i)).
    apply (Forall2_lookup_l _ _ _ (Z.to_nat (i - 1)) (img_name i)) in Hfiles
      as (x & _ & Hx); [by eauto|].
    rewrite list_lookup_fmap, lookup_seqZ_lt by (apply elem_of_seqZ in Hi; lia).
    simpl. f_equal. apply elem_of_seqZ in Hi. f_equal. lia. }
  pose proof (remove_loop_Ok _ _ _ Hremove) as Hleft.
  assert (∀ range (u u' : @world Img),
            for_each range (λ i, os_remove (img_name i)) u = (Ok (), u') →
            sensor u' = sensor u ∧ hw u' = hw u) as Hquiet.
  { induction range as [|i range IH]; intros u u'; cbn [for_each].
    - by intros [= <-].
    - intros ([] & u1 & Hrm & Hloop)%bind_Ok. apply IH in Hloop as [-> ->].
      unfold os_remove in Hrm.
      destruct (files u !! img_name i); [by injection Hrm as <-|discriminate]. }
  destruct (Hquiet _ _ _ Hremove) as [Hs4 Hh4].
  exists (World (files w4) (sensor w4) (hw w4 ++ [CameraClose])). split; [|split; [|split]].
  - unfold calibrate_start, with_PiCamera, with_.
    rewrite (bind_run _ _ _ () w1) by done.
    rewrite (bind_run _ _ _ _ _ Hcapture).
    rewrite (bind_run _ _ _ _ _ Hopen).
    rewrite (bind_run _ _ _ () w2) by done.
    rewrite (bind_run _ _ _ () w3) by done.
    rewrite (bind_run _ _ _ (average (img :: shots)) w3)
      by (unfold image_open; subst w3; cbn [files]; by rewrite lookup_insert_eq).
    by rewrite Hremove.
  - cbn [files]. rewrite Hleft, decide_False.
    + subst w3. cbn [files]. apply lookup_insert_eq.
    + intros (i & Heq & _)%list_elem_of_fmap. by destruct (img_name_not_average i).
  - cbn [sensor]. rewrite Hs4. subst w3. cbn [sensor]. done.
  - cbn [hw]. rewrite Hh4. subst w3. cbn [hw]. rewrite Hhw. subst w1. cbn [hw].
    rewrite length_seqZ. by rewrite <- !app_assoc.
Qed.

Lemma capture_loop_stops done i todo fns (w : @world Img) shots tail :
  sensor w = (Some <$> shots) ++ tail → length shots = length done →
  (∀ img rest, tail ≠ Some img :: rest) →
  ∃ w', capture_loop (done ++ i :: todo) fns w = (Raise PiCameraError, w') ∧
        hw w' = hw w ++ replicate (S (length done)) CameraCapture ∧
        (∀ fn, fn ∉ img_name <$> done → files w' !! fn = files w !! fn) ∧
        (∀ j, j ∈ done → is_Some (files w' !! img_name j)).
Proof.
  revert fns w shots. induction done as [|j done IH]; intros fns w shots Hs Hlen Htail.
  - destruct shots; [|discriminate]. cbn [fmap list_fmap app] in Hs.
    exists (World (files w) (match tail with [] => [] | _ :: rest => rest end)
              (hw w ++ [CameraCapture])).
    split; [|split; [done|split; [done|]]].
    + cbn [app capture_loop]. apply bind_raises. unfold capture. rewrite Hs.
      destruct tail as [|[img|] rest]; [done| |done]. by destruct (Htail img rest).
    + intros j []%elem_of_nil.
  - destruct shots as [|img shots]; [discriminate|]. injection Hlen as Hlen.
    set (w1 := World (<[img_name j := img]> (files w)) ((Some <$> shots) ++ tail)
                 (hw w ++ [CameraCapture])).
    destruct (IH (fns ++ [img_name j]) w1 shots eq_refl Hlen Htail)
      as (w' & Hloop & Hhw & Hkeep & Hthere).
    exists w'. split; [|split; [|split]].
    + cbn [app capture_loop].
      rewrite (bind_run _ _ _ () w1) by (unfold capture; by rewrite Hs).
      rewrite (bind_run _ _ _ img w1)
        by (unfold image_open; subst w1; cbn [files]; by rewrite lookup_insert_eq).
      exact Hloop.
    + rewrite Hhw. subst w1. cbn [hw length replicate]. by rewrite <- app_assoc.
    + intros fn Hfn. rewrite fmap_cons, not_elem_of_cons in Hfn.
      destruct Hfn as [Hne Hfn]. rewrite (Hkeep fn Hfn). subst w1. cbn [files].
      by rewrite lookup_insert_ne.
    + intros j' [->|Hj']%elem_of_cons; [|by apply Hthere].
      destruct (decide (img_name j ∈ img_name <$> done)) as [Hin|Hout].
      * apply list_elem_of_fmap in Hin as (j' & -> & Hj'). by apply Hthere.
      * rewrite (Hkeep _ Hout). subst w1. cbn [files]. rewrite lookup_insert_eq. eauto.
Qed.

(** X7. When the camera fails after [k < num_total] good captures, the
    calibration raises the camera error with the camera closed; no
    baseline is written (the file [average.jpg] is as it was before), and
    the [k] files captured so far are left in the directory. *)
Theorem failed_capture_leaves_the_frames_behind
    (num_total : Z) (w : @world Img) shots tail :
  sensor w = (Some <$> shots) ++ tail →
  (∀ img rest, tail ≠ Some img :: rest) →
  Z.of_nat (length shots) < num_total →
  ∃ w', calibrate_start average num_total w = (Raise PiCameraError, w') ∧
        files w' !! "average.jpg" = files w !! "average.jpg" ∧
        (∀ i, 1 <= i <= Z.of_nat (length shots) →
              is_Some (files w' !! img_name i)) ∧
        hw w' = hw w ++ [CameraOpen; CameraConfigure]
                  ++ replicate (S (length shots)) CameraCapture ++ [CameraClose].
Proof.
  intros Hsensor Htail Hk.
  set (k := Z.of_nat (length shots)) in *.
  assert (seqZ 1 num_total
          = seqZ 1 k ++ (1 + k) :: seqZ (Z.succ (1 + k)) (Z.pred (num_total - k)))
    as Hrange.
  { replace num_total with (k + (num_total - k)) at 1 by lia.
    rewrite seqZ_app by lia. f_equal. apply seqZ_cons. lia. }
  set (w1 := World (files w) (sensor w) ((hw w ++ [CameraOpen]) ++ [CameraConfigure])).
  destruct (capture_loop_stops (seqZ 1 k) (1 + k)
              (seqZ (Z.succ (1 + k)) (Z.pred (num_total - k))) [] w1 shots tail Hsensor)
    as (w2 & Hloop & Hhw & Hkeep & Hthere);
    [rewrite length_seqZ; subst k; lia|done|].
  rewrite <- Hrange in Hloop.
  exists (World (files w2) (sensor w2) (hw w2 ++ [CameraClose])).
  split; [|split; [|split]].
  - unfold calibrate_start, with_PiCamera, with_.
    rewrite (bind_run _ _ _ () w1) by done.
    by rewrite (bind_raises _ _ _ _ _ Hloop).
  - cbn [files]. rewrite Hkeep; [done|].
    intros (i & Heq & _)%list_elem_of_fmap. by destruct (img_name_not_average i).
  - intros i Hi. cbn [files]. apply Hthere. apply elem_of_seqZ. lia.
  - cbn [hw]. rewrite Hhw. subst w1. cbn [hw]. rewrite length_seqZ.
    subst k. rewrite Nat2Z.id. by rewrite <- !app_assoc.
Qed.

End CalibrationRuns.

Lemma calibration_averages_the_captures_of_ten :
  1 <= 10 ∧
  Calibration.sensor MoreScenes.ten_in_sensor = (Some <$> MoreScenes.ten_shots) ++ [] ∧
  length MoreScenes.ten_shots = Z.to_nat 10 ∧
  ∃ w', Calibration.calibrate_start Scenes.mean 10 MoreScenes.ten_in_sensor = (Ok (), w') ∧
        Calibration.files w' !! "average.jpg" = Some (Scenes.mean MoreScenes.ten_shots) ∧
        Calibration.sensor w' = [] ∧
        Calibration.hw w' = Calibration.hw MoreScenes.ten_in_sensor ++ [CameraOpen; CameraConfigure]
                  ++ replicate (Z.to_nat 10) CameraCapture ++ [CameraClose].
Proof.
  split; [lia|]. split; [reflexivity|]. split; [reflexivity|].
  apply (calibration_averages_the_captures Scenes.mean 10 MoreScenes.ten_in_sensor
           MoreScenes.ten_shots []); [lia|reflexivity|reflexivity].
Defined.

Lemma failed_capture_leaves_the_frames_behind_at_the_third :
  Calibration.sensor MoreScenes.failing_third = (Some <$> [7; 9]) ++ [None; Some 11] ∧
  (∀ img rest, [None; Some 11] ≠ Some img :: rest) ∧
  Z.of_nat (length [7; 9]) < 10 ∧
  ∃ w', Calibration.calibrate_start Scenes.mean 10 MoreScenes.failing_third
        = (Raise PiCameraError, w') ∧
        Calibration.files w' !! "average.jpg" = Calibration.files MoreScenes.failing_third !! "average.jpg" ∧
        (∀ i, 1 <= i <= Z.of_nat (length [7; 9]) →
              is_Some (Calibration.files w' !! Calibration.img_name i)) ∧
        Calibration.hw w' = Calibration.hw MoreScenes.failing_third ++ [CameraOpen; CameraConfigure]
                  ++ replicate (S (length [7; 9])) CameraCapture ++ [CameraClose].
Proof.
  split; [reflexivity|]. split; [discriminate|]. split; [reflexivity|].
  apply (failed_capture_leaves_the_frames_behind Scenes.mean 10
           MoreScenes.failing_third [7; 9] [None; Some 11]);
    [reflexivity|discriminate|reflexivity].
Defined.

(* --------------------------------------------------------------------- *)
(** ** The inspection cycle: order of actions and failures                 *)
(* --------------------------------------------------------------------- *)

Section CycleOutcomes.
Import Difference.
Context {Frame : Type}.
Variable cvtColor : Frame → list (list Z).
Variable findContours : list (list Z) → list (list (Z * Z)).
Variable boundingRect : list (Z * Z) → Z * Z * Z * Z.

Ltac lit_steps :=
  unfold alert, ok, flash; cbn [pins hw note set_led record];
  repeat first [rewrite lit_insert_led | rewrite lit_insert_ne by done].

(** X8. A capture that fails: the cycle raises the camera error after the
    flash has been switched on and never switches it off; alert and ok are
    as before, and the camera is closed. *)
Theorem failed_capture_leaves_the_flash_on sens average_jpg w :
  ready (pins w) →
  ∃ w', run_dif cvtColor findContours boundingRect sens average_jpg None w
        = (Raise PiCameraError, w') ∧
        flash (pins w') = true ∧
        alert (pins w') = alert (pins w) ∧ ok (pins w') = ok (pins w) ∧
        events_since w w'
        = [CameraOpen; CameraConfigure; PinWrite PIN_LED_FLASH true;
           CameraCapture; CameraClose].
Proof.
  intros Hready. rewrite run_dif_ready by done. cbn zeta. eexists. split; [done|].
  split; [by lit_steps|]. split; [by lit_steps|]. split; [by lit_steps|].
  unfold events_since. cbn [hw pins note set_led record].
  by rewrite <- !app_assoc, drop_app_length.
Qed.

(** X9. A baseline that is missing or does not have the shape of the frame:
    the cycle raises [cv2.error] after the capture, with the flash off
    again, alert and ok as before, and the camera closed; nothing is
    cropped or resized. *)
Theorem mismatching_baseline_fails_the_cycle sens average_jpg image w :
  ready (pins w) →
  (∀ base, average_jpg = Some base → length <$> base ≠ length <$> cvtColor image) →
  ∃ w', run_dif cvtColor findContours boundingRect sens average_jpg (Some image) w
        = (Raise CvError, w') ∧
        flash (pins w') = false ∧
        alert (pins w') = alert (pins w) ∧ ok (pins w') = ok (pins w) ∧
        events_since w w'
        = [CameraOpen; CameraConfigure; PinWrite PIN_LED_FLASH true;
           CameraCapture; PinWrite PIN_LED_FLASH false; CameraClose].
Proof.
  intros Hready Hshape. rewrite run_dif_ready by done. cbn zeta.
  assert (detect findContours boundingRect average_jpg (cvtColor image) sens
          = Raise CvError) as ->.
  { unfold detect, binarize, absdiff. destruct average_jpg as [base|]; [|done].
    unfold same_shape. by rewrite bool_decide_eq_false_2 by by apply Hshape. }
  eexists. split; [done|].
  split; [by lit_steps|]. split; [by lit_steps|]. split; [by lit_steps|].
  unfold events_since. cbn [hw pins note set_led record].
  by rewrite <- !app_assoc, drop_app_length.
Qed.

(** X10. A cycle that completes, from a page with the flash off: the camera is
    opened and configured, the flash switched on, one frame captured, the
    flash switched off, alert and ok set, the camera closed, in that
    order.  The flash is lit in exactly the two states that switching it
    on and the capture leave. *)
Theorem completed_cycle_order sens average_jpg shot image drawn obj w w' :
  ready (pins w) → flash (pins w) = false →
  run_dif cvtColor findContours boundingRect sens average_jpg shot w
  = (Ok (image, drawn, obj), w') →
  shot = Some image ∧
  events_since w w'
  = [CameraOpen; CameraConfigure; PinWrite PIN_LED_FLASH true; CameraCapture;
     PinWrite PIN_LED_FLASH false;
     PinWrite PIN_LED_R (bool_decide (obj ≠ 0));
     PinWrite PIN_LED_G (bool_decide (obj = 0)); CameraClose] ∧
  (∀ e ps, (e, ps) ∈ drop (length (hw w)) (hw w') →
           (flash ps = true ↔ e = PinWrite PIN_LED_FLASH true ∨ e = CameraCapture)) ∧
  flash (pins w') = false.
Proof.
  intros Hready Hflash. rewrite run_dif_ready by done. cbn zeta.
  destruct shot as [image'|]; [|discriminate].
  destruct (detect _ _ _ _ _) as [[drawn' obj']|e]; [|discriminate].
  intros [= -> -> -> <-]. split; [done|].
  assert (bool_decide (obj = 0) = negb (bool_decide (obj ≠ 0))) as ->.
  { destruct (decide (obj = 0)) as [->|Hz]; [reflexivity|].
    by rewrite (bool_decide_eq_false_2 (obj = 0)), (bool_decide_eq_true_2 (obj ≠ 0)). }
  unfold events_since.
  destruct (bool_decide (obj ≠ 0)); cbn [hw pins note set_led record negb];
    rewrite <- !app_assoc, drop_app_length; (split; [done|]);
    (split; [|by lit_steps]);
    intros e ps Hin; cbn [app] in Hin;
    repeat (apply elem_of_cons in Hin as [Hin|Hin]);
    try (by apply elem_of_nil in Hin);
    injection Hin as -> ->; unfold flash in *;
    repeat first [rewrite lit_insert_led | rewrite lit_insert_ne by done];
    rewrite ?Hflash;
    (split; [intros Hc; first [done | by left | by right]
            |intros [Hc|Hc]; first [done | discriminate]]).
Qed.

(** X11. Begin and Back alternate.  From every reachable main page, [Begin]
    acquires the switch and the three LEDs anew, all indicators off;
    building the devices again on a page that still holds them raises on
    the switch pin and changes nothing. *)
Theorem begin_acquires_the_devices_anew f :
  reachable cvtColor findContours boundingRect f →
  (shown f = MainPage →
   ∃ w', init_inprogress (hardware f) = (Ok (), w') ∧ ready (pins w') ∧
         alert (pins w') = false ∧ ok (pins w') = false ∧ flash (pins w') = false ∧
         events_since (hardware f) w'
         = [PinOpen PIN_SWITCH; PinOpen PIN_LED_R; PinOpen PIN_LED_G;
            PinOpen PIN_LED_FLASH]) ∧
  (shown f = InprogressPage →
   init_inprogress (hardware f) = (Raise (GPIOPinInUse PIN_SWITCH), hardware f)).
Proof.
  intros [Hpins _]%reachable_page. split; intros Hpage; rewrite Hpage in Hpins;
    cbn [page_pins] in Hpins.
  - rewrite init_inprogress_fresh by done. eexists. split; [done|].
    cbn [pins hw acquire set_handler record]. rewrite Hpins.
    split; [apply ready_acquired|].
    unfold alert, ok, flash, events_since.
    repeat first [rewrite lit_insert_led | rewrite lit_insert_ne by done].
    rewrite ?lit_empty. cbn [pins hw acquire set_handler record].
    by rewrite <- !app_assoc, drop_app_length.
  - destruct Hpins as (_ & _ & _ & Hswitch & _).
    unfold init_inprogress, gpio_open. unfold mbind, M_bind. by rewrite Hswitch.
Qed.

End CycleOutcomes.

Section ZeroDifference.
Import Difference.

(** X12. A frame identical to the baseline has no foreground pixel for any
    sensitivity from 0 upwards; for a negative sensitivity every pixel of
    it is foreground. *)
Theorem identical_frame_has_no_foreground (img : list (list Z)) (sens : Z) :
  ∃ thresh,
    binarize (Some img) img sens = Ok thresh ∧
    (0 <= sens → ∀ y x, foreground thresh y x = false) ∧
    (sens < 0 → ∀ y x, is_Some (pixel img y x) → foreground thresh y x = true).
Proof.
  assert (same_shape img img = true) as Hshape by (by apply bool_decide_eq_true_2).
  assert (absdiff (Some img) img = Ok (zip_with (zip_with absdiff_px) img img))
    as Hdiff by (unfold absdiff; by rewrite Hshape).
  eexists. split; [unfold binarize; by rewrite Hdiff|]. split.
  - intros Hs y x.
    destruct (foreground _ y x) eqn:Hfg; [|done].
    destruct (foreground_inside _ _ _ Hfg) as [p Hp]. rewrite pixel_threshold in Hp.
    destruct (pixel (zip_with _ img img) y x) as [d|] eqn:Hd; [|discriminate].
    destruct (pixel_absdiff_inv _ _ _ _ _ _ Hdiff Hd) as (b & f & Hb & Hf & ->).
    rewrite (foreground_threshold _ _ _ _ _ Hd) in Hfg.
    apply bool_decide_eq_true in Hfg. rewrite Hb in Hf. injection Hf as <-. lia.
  - intros Hs y x [p Hp].
    rewrite (foreground_threshold _ _ _ _ _ (pixel_absdiff _ _ _ _ _ _ _ Hdiff Hp Hp)).
    apply bool_decide_eq_true_2. lia.
Qed.

End ZeroDifference.

Lemma armed_ready : Difference.ready (Difference.pins Scenes.armed).
Proof.
  exact (proj1 (reachable_page OpenCV.cvtColor_BGR2GRAY OpenCV.findContours
                  OpenCV.boundingRect Scenes.armed_page armed_page_reachable)).
Defined.

Lemma failed_capture_leaves_the_flash_on_after_begin :
  Difference.ready (Difference.pins Scenes.armed) ∧
  ∃ w', Difference.run_dif OpenCV.cvtColor_BGR2GRAY OpenCV.findContours
          OpenCV.boundingRect 25 (Some Scenes.black) None Scenes.armed
        = (Raise PiCameraError, w') ∧
        Difference.flash (Difference.pins w') = true ∧
        Difference.alert (Difference.pins w')
        = Difference.alert (Difference.pins Scenes.armed) ∧
        Difference.ok (Difference.pins w') = Difference.ok (Difference.pins Scenes.armed) ∧
        Difference.events_since Scenes.armed w'
        = [CameraOpen; CameraConfigure; PinWrite Difference.PIN_LED_FLASH true;
           CameraCapture; CameraClose].
Proof.
  split; [exact armed_ready|].
  exact (failed_capture_leaves_the_flash_on OpenCV.cvtColor_BGR2GRAY OpenCV.findContours
           OpenCV.boundingRect 25 (Some Scenes.black) Scenes.armed armed_ready).
Defined.

Lemma mismatching_baseline_fails_the_cycle_on_a_small_baseline :
  Difference.ready (Difference.pins Scenes.armed) ∧
  (∀ base, Some [[0; 0]; [0; 0]] = Some base →
           length <$> base ≠ length <$> OpenCV.cvtColor_BGR2GRAY [[(0, 0, 0)]]) ∧
  ∃ w', Difference.run_dif OpenCV.cvtColor_BGR2GRAY OpenCV.findContours
          OpenCV.boundingRect 25 (Some [[0; 0]; [0; 0]]) (Some [[(0, 0, 0)]]) Scenes.armed
        = (Raise CvError, w') ∧
        Difference.flash (Difference.pins w') = false ∧
        Difference.alert (Difference.pins w')
        = Difference.alert (Difference.pins Scenes.armed) ∧
        Difference.ok (Difference.pins w') = Difference.ok (Difference.pins Scenes.armed) ∧
        Difference.events_since Scenes.armed w'
        = [CameraOpen; CameraConfigure; PinWrite Difference.PIN_LED_FLASH true;
           CameraCapture; PinWrite Difference.PIN_LED_FLASH false; CameraClose].
Proof.
  assert (∀ base, Some [[0; 0]; [0; 0]] = Some base →
            length <$> base ≠ length <$> OpenCV.cvtColor_BGR2GRAY [[(0, 0, 0)]])
    as Hshape by (intros base [= <-]; discriminate).
  split; [exact armed_ready|]. split; [exact Hshape|].
  exact (mismatching_baseline_fails_the_cycle OpenCV.cvtColor_BGR2GRAY
           OpenCV.findContours OpenCV.boundingRect 25 (Some [[0; 0]; [0; 0]])
           [[(0, 0, 0)]] Scenes.armed armed_ready Hshape).
Defined.

Lemma completed_cycle_order_on_a_clean_frame :
  Difference.ready (Difference.pins Scenes.armed) ∧
  Difference.flash (Difference.pins Scenes.armed) = false ∧
  Scenes.cycle 25 Scenes.clean Scenes.armed
  = (Ok (Scenes.clean, [], 0), (Scenes.cycle 25 Scenes.clean Scenes.armed).2) ∧
  Difference.events_since Scenes.armed (Scenes.cycle 25 Scenes.clean Scenes.armed).2
  = [CameraOpen; CameraConfigure; PinWrite Difference.PIN_LED_FLASH true; CameraCapture;
     PinWrite Difference.PIN_LED_FLASH false;
     PinWrite Difference.PIN_LED_R (bool_decide (0 ≠ 0));
     PinWrite Difference.PIN_LED_G (bool_decide (0 = 0)); CameraClose] ∧
  Difference.flash (Difference.pins (Scenes.cycle 25 Scenes.clean Scenes.armed).2) = false.
Proof.
  assert (Scenes.cycle 25 Scenes.clean Scenes.armed
          = (Ok (Scenes.clean, [], 0), (Scenes.cycle 25 Scenes.clean Scenes.armed).2))
    as Hrun by (vm_compute; reflexivity).
  split; [exact armed_ready|]. split; [reflexivity|]. split; [exact Hrun|].
  destruct (completed_cycle_order OpenCV.cvtColor_BGR2GRAY OpenCV.findContours
              OpenCV.boundingRect 25 (Some Scenes.black) (Some Scenes.clean)
              Scenes.clean [] 0 Scenes.armed _ armed_ready eq_refl Hrun)
    as (_ & Hevents & _ & Hflash).
  split; [exact Hevents|exact Hflash].
Defined.

Lemma begin_acquires_the_devices_anew_on_both_pages :
  Difference.reachable OpenCV.cvtColor_BGR2GRAY OpenCV.findContours OpenCV.boundingRect
    Scenes.armed_page ∧
  (Difference.shown Scenes.armed_page = Difference.InprogressPage →
   Difference.init_inprogress (Difference.hardware Scenes.armed_page)
   = (Raise (GPIOPinInUse Difference.PIN_SWITCH), Difference.hardware Scenes.armed_page)).
Proof.
  split; [exact armed_page_reachable|].
  exact (proj2 (begin_acquires_the_devices_anew OpenCV.cvtColor_BGR2GRAY
                  OpenCV.findContours OpenCV.boundingRect Scenes.armed_page
                  armed_page_reachable)).
Defined.

(* --------------------------------------------------------------------- *)
(** ** The selection rectangle                                             *)
(* --------------------------------------------------------------------- *)

Section Tracker.
Import RectTracker.

Lemma tracks_handle c0 st e :
  well_numbered c0 → tracks c0 st → tracks c0 (handle st e).
Proof.
  intros Hwn. destruct st as [[s it] c]. intros [Hnext Hitems]. cbn in *.
  destruct e as [x y|]; cbn; [|done].
  destruct s as [s|]; cbn; [|done].
  assert (∀ i, (next_id c0 ≤ i)%nat → items c0 !! i = None) as Hfree.
  { intros i Hi. destruct (items c0 !! i) eqn:Hl; [|done].
    assert (i < next_id c0)%nat by (apply Hwn; eauto). lia. }
  destruct it as [i|]; cbn.
  - destruct Hitems as (Hi & c1 & c2 & ->). unfold tracks. cbn.
    split; [lia|]. split; [lia|]. exists s, (x, y).
    rewrite delete_insert_id; [done|]. apply Hfree. lia.
  - unfold tracks. cbn. split; [lia|]. split; [lia|]. exists s, (x, y).
    by rewrite Hitems.
Qed.

(** X13. Whatever the sequence of presses, motions and releases, the tracker
    has at most one rectangle on the canvas and leaves every other item
    alone: the canvas is the one it started on, plus the current
    rectangle if one has been drawn. *)
Theorem tracker_keeps_one_rectangle (c0 : canvas) (events : list event) :
  well_numbered c0 →
  match item (run events (fresh, c0)).1 with
  | None => items (run events (fresh, c0)).2 = items c0
  | Some i =>
      items c0 !! i = None ∧
      ∃ corner1 corner2,
        items (run events (fresh, c0)).2 = <[i := Rect corner1 corner2]> (items c0)
  end.
Proof.
  intros Hwn.
  assert (tracks c0 (run events (fresh, c0))) as [_ Htracks].
  { unfold run. generalize (fresh, c0) (conj (le_n (next_id c0)) (eq_refl (items c0))
                                         : tracks c0 (fresh, c0)).
    induction events as [|e events IH]; intros st Hst; [done|].
    cbn [foldl]. apply IH. by apply tracks_handle. }
  destruct (item _) as [i|]; [|done].
  destruct Htracks as [Hi Hrect]. split; [|done].
  destruct (items c0 !! i) eqn:Hl; [|done].
  assert (i < next_id c0)%nat by (apply Hwn; eauto). lia.
Qed.

(** X14. A drag: the press, then motions, then the release.  The rectangle on
    the canvas runs from the point of the press to the point of the last
    motion. *)
Theorem drag_draws_from_press_to_last_motion
    (c0 : canvas) (x0 y0 x y : Z) (motions : list (Z * Z)) :
  well_numbered c0 →
  let events := Update x0 y0 :: (uncurry Update <$> motions) ++ [Update x y; Stop] in
  ∃ i, item (run events (fresh, c0)).1 = Some i ∧
       start (run events (fresh, c0)).1 = None ∧
       items (run events (fresh, c0)).2 = <[i := Rect (x0, y0) (x, y)]> (items c0).
Proof.
  intros Hwn events. subst events. unfold run. cbn [foldl handle update fresh start item].
  rewrite foldl_app. cbn [foldl handle stop].
  assert (∀ it c, tracks c0 (Tracker (Some (x0, y0)) it, c) →
            ∃ it' c', foldl handle (Tracker (Some (x0, y0)) it, c) (uncurry Update <$> motions)
                      = (Tracker (Some (x0, y0)) it', c') ∧
                      tracks c0 (Tracker (Some (x0, y0)) it', c')) as Hmotions.
  { induction motions as [|[mx my] motions IH]; intros it c Hst; [by eauto|].
    cbn [fmap list_fmap foldl]. change (uncurry Update (mx, my)) with (Update mx my).
    pose proof (tracks_handle c0 _ (Update mx my) Hwn Hst) as Hst'.
    cbn [handle update start item] in *.
    destruct (create _ _) as [i c1] eqn:Hcreate. by apply IH. }
  destruct (Hmotions None c0) as (it & c & -> & [Hnext Hitems]).
  { split; [done|]. done. }
  cbn [update start item]. cbn in Hitems, Hnext.
  assert (∀ i, (next_id c0 ≤ i)%nat → items c0 !! i = None) as Hfree.
  { intros i Hi. destruct (items c0 !! i) eqn:Hl; [|done].
    assert (i < next_id c0)%nat by (apply Hwn; eauto). lia. }
  destruct it as [i|]; cbn; eexists; (split; [done|]); (split; [done|]).
  - destruct Hitems as (Hi & c1 & c2 & ->). cbn.
    rewrite delete_insert_id; [done|]. apply Hfree. lia.
  - cbn. by rewrite Hitems.
Qed.

End Tracker.

Lemma zoom_canvas_well_numbered : RectTracker.well_numbered MoreScenes.zoom_canvas.
Proof.
  intros i [s Hs]. cbn in *. apply lookup_singleton_Some in Hs as [<- _]. lia.
Defined.

Lemma tracker_keeps_one_rectangle_on_the_zoom_canvas :
  RectTracker.well_numbered MoreScenes.zoom_canvas ∧
  match RectTracker.item
          (RectTracker.run [RectTracker.Update 5 5; RectTracker.Update 9 9;
                            RectTracker.Stop; RectTracker.Update 1 1]
             (RectTracker.fresh, MoreScenes.zoom_canvas)).1 with
  | None =>
      RectTracker.items
        (RectTracker.run [RectTracker.Update 5 5; RectTracker.Update 9 9;
                          RectTracker.Stop; RectTracker.Update 1 1]
           (RectTracker.fresh, MoreScenes.zoom_canvas)).2
      = RectTracker.items MoreScenes.zoom_canvas
  | Some i =>
      RectTracker.items MoreScenes.zoom_canvas !! i = None ∧
      ∃ corner1 corner2,
        RectTracker.items
          (RectTracker.run [RectTracker.Update 5 5; RectTracker.Update 9 9;
                            RectTracker.Stop; RectTracker.Update 1 1]
             (RectTracker.fresh, MoreScenes.zoom_canvas)).2
        = <[i := RectTracker.Rect corner1 corner2]>
            (RectTracker.items MoreScenes.zoom_canvas)
  end.
Proof.
  split; [exact zoom_canvas_well_numbered|].
  exact (tracker_keeps_one_rectangle MoreScenes.zoom_canvas
           [RectTracker.Update 5 5; RectTracker.Update 9 9;
            RectTracker.Stop; RectTracker.Update 1 1] zoom_canvas_well_numbered).
Defined.

Lemma drag_draws_from_press_to_last_motion_on_the_zoom_canvas :
  RectTracker.well_numbered MoreScenes.zoom_canvas ∧
  ∃ i, RectTracker.item
         (RectTracker.run
            (RectTracker.Update 5 5
               :: (uncurry RectTracker.Update <$> [(6, 7); (8, 8)])
               ++ [RectTracker.Update 9 9; RectTracker.Stop])
            (RectTracker.fresh, MoreScenes.zoom_canvas)).1 = Some i ∧
       RectTracker.start
         (RectTracker.run
            (RectTracker.Update 5 5
               :: (uncurry RectTracker.Update <$> [(6, 7); (8, 8)])
               ++ [RectTracker.Update 9 9; RectTracker.Stop])
            (RectTracker.fresh, MoreScenes.zoom_canvas)).1 = None ∧
       RectTracker.items
         (RectTracker.run
            (RectTracker.Update 5 5
               :: (uncurry RectTracker.Update <$> [(6, 7); (8, 8)])
               ++ [RectTracker.Update 9 9; RectTracker.Stop])
            (RectTracker.fresh, MoreScenes.zoom_canvas)).2
       = <[i := RectTracker.Rect (5, 5) (9, 9)]>
           (RectTracker.items MoreScenes.zoom_canvas).
Proof.
  split; [exact zoom_canvas_well_numbered|].
  exact (drag_draws_from_press_to_last_motion MoreScenes.zoom_canvas 5 5 9 9
           [(6, 7); (8, 8)] zoom_canvas_well_numbered).
Defined.

(* --------------------------------------------------------------------- *)
(** ** The zoom rectangle                                                  *)
(* --------------------------------------------------------------------- *)

Section ZoomRectangle.
Import Zoom.
Context {R : Type}.
Variable ratio3 : Z → Z → R.

Lemma getzoomcoords_clamp (zoom_w zoom_h : Z) (g : drag) :
  getzoomcoords ratio3 zoom_w zoom_h g
  = let g' := Drag (clamp zoom_w (dx g)) (clamp zoom_h (dy g))
                   (clamp zoom_w (ux g)) (clamp zoom_h (uy g)) in
    (if (zoom_w =? 0) || (zoom_h =? 0) then None
     else Some (ratio3 (Z.min (dx g') (ux g')) zoom_w,
                ratio3 (Z.min (dy g') (uy g')) zoom_h,
                ratio3 (Z.max (dx g') (ux g')) zoom_w,
                ratio3 (Z.max (dy g') (uy g')) zoom_h),
     g').
Proof.
  unfold getzoomcoords, clamp. cbn zeta. by destruct (_ || _).
Qed.

Lemma clamp_range size v : 0 <= size → 0 <= clamp size v <= size.
Proof.
  unfold clamp. cbn zeta. intros. destruct (Z.ltb_spec v 0);
    [destruct (Z.ltb_spec size 0)|destruct (Z.ltb_spec size v)]; lia.
Qed.

Lemma clamp_inside size v : 0 <= v <= size → clamp size v = v.
Proof.
  unfold clamp. cbn zeta. intros. destruct (Z.ltb_spec v 0); [lia|].
  destruct (Z.ltb_spec size v); lia.
Qed.

(** X15. On an image with a width and a height, [getzoomcoords] returns a
    rectangle and leaves the four drag coordinates clamped into the image
    (unchanged if they were inside).  The rectangle does not depend on the
    direction of the drag, and asking again gives the same rectangle. *)
Theorem zoom_rectangle_is_clamped_and_repeatable (zoom_w zoom_h : Z) (g : drag) :
  0 < zoom_w → 0 < zoom_h →
  let g' := (getzoomcoords ratio3 zoom_w zoom_h g).2 in
  is_Some (getzoomcoords ratio3 zoom_w zoom_h g).1 ∧
  (0 <= dx g' <= zoom_w ∧ 0 <= ux g' <= zoom_w ∧
   0 <= dy g' <= zoom_h ∧ 0 <= uy g' <= zoom_h) ∧
  (0 <= dx g <= zoom_w → 0 <= ux g <= zoom_w →
   0 <= dy g <= zoom_h → 0 <= uy g <= zoom_h → g' = g) ∧
  (getzoomcoords ratio3 zoom_w zoom_h (swap g)).1
  = (getzoomcoords ratio3 zoom_w zoom_h g).1 ∧
  getzoomcoords ratio3 zoom_w zoom_h g'
  = getzoomcoords ratio3 zoom_w zoom_h g.
Proof.
  intros Hw Hh g'. subst g'. rewrite !getzoomcoords_clamp. cbn zeta.
  cbn [fst snd dx dy ux uy swap].
  assert ((zoom_w =? 0) || (zoom_h =? 0) = false) as ->.
  { apply orb_false_iff. split; apply Z.eqb_neq; lia. }
  split; [by eauto|]. split.
  { repeat split; apply clamp_range; lia. }
  split.
  { intros. destruct g. cbn in *. by rewrite !clamp_inside. }
  split.
  { by rewrite (Z.min_comm (clamp zoom_w (ux g))), (Z.min_comm (clamp zoom_h (uy g))),
      (Z.max_comm (clamp zoom_w (ux g))), (Z.max_comm (clamp zoom_h (uy g))). }
  rewrite !(clamp_inside _ (clamp _ _)) by (apply clamp_range; lia). done.
Qed.

End ZoomRectangle.

Lemma zoom_rectangle_is_clamped_and_repeatable_on_a_drag_outside :
  0 < 400 ∧ 0 < 250 ∧
  is_Some (Zoom.getzoomcoords MoreScenes.thousandths 400 250
             (Zoom.Drag 390 (-4) 120 300)).1 ∧
  (Zoom.getzoomcoords MoreScenes.thousandths 400 250
     (Zoom.swap (Zoom.Drag 390 (-4) 120 300))).1
  = (Zoom.getzoomcoords MoreScenes.thousandths 400 250 (Zoom.Drag 390 (-4) 120 300)).1.
Proof.
  split; [lia|]. split; [lia|].
  destruct (zoom_rectangle_is_clamped_and_repeatable MoreScenes.thousandths 400 250
              (Zoom.Drag 390 (-4) 120 300)) as (Hsome & _ & _ & Hswap & _); [lia..|].
  split; [exact Hsome|exact Hswap].
Defined.

(* --------------------------------------------------------------------- *)
(** ** The entry validators                                                *)
(* --------------------------------------------------------------------- *)

Section Validators.
Import Frames.

Lemma in_range_chars_in lo hi c : Re.in_range lo hi c = true → c ∈ Re.chars_in lo hi.
Proof.
  unfold Re.in_range, Re.chars_in. intros [Hlo Hhi]%andb_true_iff.
  apply Nat.leb_le in Hlo, Hhi. apply list_elem_of_fmap.
  exists (nat_of_ascii c). split; [by rewrite ascii_nat_embedding|].
  apply elem_of_seq. lia.
Qed.

Lemma match_seq_language p s : Re.match_seq p s = true → s ∈ Re.language_seq p.
Proof.
  revert s. induction p as [|[c|lo hi|c] p IH]; intros s; cbn [Re.match_seq Re.language_seq].
  - destruct s as [|c [|d s]]; cbn; [intros _; apply list_elem_of_here| |done].
    intros ->%Ascii.eqb_eq. apply list_elem_of_further, list_elem_of_here.
  - destruct s as [|d s]; [done|]. intros [<-%Ascii.eqb_eq Hs]%andb_true_iff.
    by apply list_elem_of_fmap_2, IH.
  - destruct s as [|d s]; [done|]. intros [Hd Hs]%andb_true_iff.
    apply list_elem_of_bind. exists d. split; [|by apply in_range_chars_in].
    by apply list_elem_of_fmap_2, IH.
  - destruct s as [|d s]; [intros Hs; apply elem_of_app; right; by apply IH|].
    intros [[<-%Ascii.eqb_eq Hs]%andb_true_iff|Hs]%orb_true_iff; apply elem_of_app;
      [left|right; by apply IH].
    by apply list_elem_of_fmap_2, IH.
Qed.

Lemma matches_language alternatives s :
  Re.matches alternatives s = true → s ∈ Re.language alternatives.
Proof.
  unfold Re.matches, Re.language. intros (p & Hp & Hs)%existsb_exists.
  apply list_elem_of_bind. exists p. split; [by apply match_seq_language|].
  by apply list_elem_of_In.
Qed.

Lemma is_decimal_of_range lo len s :
  Re.is_decimal_of (seqZ lo len) s = true ↔
  ∃ n, lo <= n < lo + len ∧
       (s = pretty n ∨ s = pretty n +:+ String Re.newline EmptyString).
Proof.
  unfold Re.is_decimal_of. rewrite existsb_exists. split.
  - intros (n & Hn%list_elem_of_In%elem_of_seqZ & Hs%orb_true_iff). exists n.
    by rewrite !String.eqb_eq in Hs.
  - intros (n & Hn & Hs). exists n. split; [by apply list_elem_of_In, elem_of_seqZ|].
    apply orb_true_iff. by rewrite !String.eqb_eq.
Qed.

Lemma accepts_exactly alternatives lo len :
  forallb (Re.is_decimal_of (seqZ lo len)) (Re.language alternatives) = true →
  forallb (λ n, Re.matches alternatives (pretty n)
                && Re.matches alternatives (pretty n +:+ String Re.newline EmptyString))
          (seqZ lo len) = true →
  ∀ s, Re.matches alternatives s = true ↔
       ∃ n, lo <= n < lo + len ∧
            (s = pretty n ∨ s = pretty n +:+ String Re.newline EmptyString).
Proof.
  intros Honly Hall s. rewrite <- is_decimal_of_range. split.
  - intros Hs%matches_language%list_elem_of_In.
    by apply (proj1 (forallb_forall _ _) Honly).
  - intros (n & Hn & Hs)%is_decimal_of_range.
    assert (In n (seqZ lo len)) as Hin by (by apply list_elem_of_In, elem_of_seqZ).
    apply (proj1 (forallb_forall _ _) Hall) in Hin as [H1 H2]%andb_true_iff.
    by destruct Hs as [-> | ->].
Qed.

(** X16. The brightness entry accepts exactly the decimal texts of 0 .. 100
    without leading zeros (so neither the empty text, nor [007], nor
    [101]); as [$] allows it, each may be followed by one newline. *)
Theorem brightness_entry_accepts_0_to_100 (value : string) :
  BrightnessFrame.onValidate value = true ↔
  ∃ n, 0 <= n <= 100 ∧
       (value = pretty n ∨ value = pretty n +:+ String Re.newline EmptyString).
Proof.
  unfold BrightnessFrame.onValidate.
  rewrite (accepts_exactly BrightnessFrame.pattern 0 101) by (vm_compute; reflexivity).
  split; intros (n & Hn & Hs); exists n; (split; [lia|done]).
Qed.

(** X17. The contrast and the sharpness entry accept exactly the decimal texts
    of -100 .. 100 ([-0] and leading zeros are refused), each possibly
    followed by one newline. *)
Theorem contrast_and_sharpness_entries_accept_minus_100_to_100 (value : string) :
  (ContrastFrame.onValidate value = true ↔
   ∃ n, -100 <= n <= 100 ∧
        (value = pretty n ∨ value = pretty n +:+ String Re.newline EmptyString)) ∧
  SharpnessFrame.onValidate value = ContrastFrame.onValidate value.
Proof.
  split; [|done]. unfold ContrastFrame.onValidate.
  rewrite (accepts_exactly ContrastFrame.pattern (-100) 201) by (vm_compute; reflexivity).
  split; intros (n & Hn & Hs); exists n; (split; [lia|done]).
Qed.

End Validators.

(* --------------------------------------------------------------------- *)
(** ** The settings page: defaults, ranges, frames and the zoom            *)
(* --------------------------------------------------------------------- *)

Section SettingsPage.
Import Settings.
Context {R : Type}.
Variable ratio3 : Z → Z → R.
Variable zero one : R.

Implicit Types p : @page R.

Lemma triple_bind {A B} (m : @P R A) (k : A → P B) pre mid post exc :
  triple pre m mid exc → (∀ a, triple mid (k a) post exc) →
  triple pre (m ≫= k) post exc.
Proof.
  intros Hm Hk p Hp. unfold mbind, P_bind. specialize (Hm p Hp).
  destruct (m p) as [[a|e] p']; [by apply Hk|done].
Qed.

Lemma triple_weaken {A} (m : @P R A) (pre pre' post post' exc exc' : page → Prop) :
  triple pre' m post' exc' →
  (∀ p, pre p → pre' p) → (∀ p, post' p → post p) → (∀ p, exc' p → exc p) →
  triple pre m post exc.
Proof.
  intros Hm Hpre Hpost Hexc p Hp. specialize (Hm p (Hpre p Hp)).
  destruct (m p) as [[a|e] p']; auto.
Qed.

Lemma triple_change (f : page → page) (pre post exc : @page R → Prop) :
  (∀ p, pre p → post (f p)) → triple pre (change f) post exc.
Proof. intros Hf p Hp. by apply Hf. Qed.

Lemma triple_look {A} (f : @page R → A) (pre exc : page → Prop) :
  triple pre (look f) pre exc.
Proof. by intros p Hp. Qed.

Lemma triple_look_bind {A B} (f : @page R → A) (k : A → P B) pre post exc :
  (∀ p, pre p → triple (λ p0, p0 = p) (k (f p)) post exc) →
  triple pre (look f ≫= k) post exc.
Proof. intros Hk p Hp. by apply (Hk p Hp p). Qed.

Section Invariant.

Variable inv : @page R → Prop.

Hypothesis inv_save :
  ∀ p, inv p → inv (set_stores (Store (default (json_settings p)) (customs p)) p).
Hypothesis inv_reset : ∀ p, inv p → inv (set_customs (defaults p) p).
Hypothesis inv_zoom : ∀ p rect, inv p → inv (set_customs (set_zoom rect (customs p)) p).
Hypothesis inv_plus : ∀ k, preserves inv (plus k).
Hypothesis inv_minus : ∀ k, preserves inv (minus k).
Hypothesis inv_rotate : ∀ d, preserves inv (rotate d).
Hypothesis inv_using_auto : ∀ p a, inv p → inv (set_using_auto a p).
Hypothesis inv_zoom_finished : ∀ p b, inv p → inv (set_zoom_finished b p).
Hypothesis inv_packed : ∀ p l, inv p → inv (set_packed l p).
Hypothesis inv_canvas : ∀ p c, inv p → inv (set_canvas c p).
Hypothesis inv_no_picture : ∀ p s, inv p → inv (set_camera s (taken p) p).
Hypothesis inv_test_picture :
  ∀ p s, inv p → inv (set_camera s (taken p ++ [("zoom_test.gif", init_camera p)]) p).
Hypothesis inv_whole_picture :
  ∀ p s, inv p →
    inv (set_camera s
           (taken p ++ [("zoom_bg.gif",
                         Config (set_zoom (zero, zero, one, one) (applied (init_camera p)))
                                (resolution (init_camera p)) (awb_mode (init_camera p)))])
           p).

Ltac through :=
  unfold preserves;
  repeat (lazymatch goal with
          | |- triple _ (_ ≫= _) _ _ => apply triple_bind with (mid := inv); [|intros ?]
          end).

Lemma save_vars_preserves : preserves inv save_vars.
Proof. apply triple_change, inv_save. Qed.

Lemma pack_preserves f : preserves inv (pack f).
Proof. apply triple_change. intros p. apply inv_packed. Qed.

Lemma pack_forget_preserves f : preserves inv (pack_forget f).
Proof. apply triple_change. intros p. apply inv_packed. Qed.

Lemma zoom_test_preserves : preserves inv zoom_test.
Proof.
  unfold zoom_test.
  apply triple_bind with (mid := inv); [apply save_vars_preserves|intros _].
  intros p Hp. unfold mbind, P_bind, look, capture.
  destruct (sensor p) as [|[] rest]; cbn; auto.
Qed.

Lemma capture_image_zoom_preserves : preserves inv (capture_image_zoom zero one).
Proof.
  unfold capture_image_zoom.
  apply triple_bind with (mid := inv); [apply save_vars_preserves|intros _].
  intros p Hp. unfold mbind, P_bind, look, capture.
  destruct (sensor p) as [|[] rest]; cbn; auto.
Qed.

Lemma init_zoom_preserves : preserves inv (init_zoom zero one).
Proof.
  unfold init_zoom. through; [apply capture_image_zoom_preserves|].
  apply triple_change. intros p. apply inv_canvas.
Qed.

Lemma store_zoom_preserves : preserves inv (store_zoom ratio3).
Proof.
  intros p Hp. unfold store_zoom, mbind, P_bind, getzoomcoords.
  destruct (canvas p) as [[[w h] g]|]; [|done].
  destruct (Zoom.getzoomcoords ratio3 w h g) as [[rect|] g']; cbn.
  - apply (inv_zoom (set_canvas (Some (w, h, g')) p)). by apply inv_canvas.
  - by apply inv_canvas.
Qed.

Lemma settings2main_preserves : preserves inv settings2main.
Proof.
  unfold settings2main. through; [|apply pack_forget_preserves|apply pack_preserves].
  apply triple_change. intros p. apply inv_using_auto.
Qed.

Lemma handler_preserves a : preserves inv (handler ratio3 zero one a).
Proof.
  destruct a; cbn [handler];
    unfold main2settings, main2manual, settings2splash, settings2zoom, settings2manual,
      zoom2settings_n, zoom2settings_b, zoom2manual, conf2settings, conf2zoom,
      manual2zoom, manual2main, init_zoom_confirm, reset_to_default,
      savecoords_d, savecoords_u;
    through;
    first [ apply settings2main_preserves | apply save_vars_preserves
          | apply pack_preserves | apply pack_forget_preserves
          | apply init_zoom_preserves | apply store_zoom_preserves
          | apply zoom_test_preserves | apply inv_plus | apply inv_minus
          | apply inv_rotate | apply triple_change; intros p Hp ];
    auto.
  - destruct (canvas p) as [[[w h] g]|]; auto.
  - destruct (canvas p) as [[[w h] g]|]; auto.
Qed.

Lemma reachable_invariant file captures p :
  inv (init file captures) → reachable ratio3 zero one file captures p → inv p.
Proof.
  intros Hinit Hp. induction Hp as [|p p' _ IH Hstep]; [done|].
  destruct Hstep as [a p Hshown]. pose proof (handler_preserves a p IH) as H.
  by destruct (handler ratio3 zero one a p) as [[[]|e] p'].
Qed.

End Invariant.

Ltac run_handler :=
  unfold handler, main2settings, main2manual, settings2splash, settings2main,
    settings2zoom, settings2manual, zoom2settings_n, zoom2settings_b, zoom2manual,
    conf2settings, conf2zoom, manual2zoom, manual2main, init_zoom_confirm,
    reset_to_default, savecoords_d, savecoords_u, init_zoom, capture_image_zoom,
    zoom_test, store_zoom, getzoomcoords, save_vars, plus, minus, rotate, pack,
    pack_forget, capture, look, change, mbind, P_bind;
  cbn.

Lemma handler_shows a p :
  packed p = [offered_by a] →
  packed (handler ratio3 zero one a p).2 = [] ∨
  ∃ f, packed (handler ratio3 zero one a p).2 = [f].
Proof.
  destruct p as [d j df cu ua zf pk cv se tk]. cbn. intros ->.
  destruct a; try (vm_compute; eauto; fail).
  - destruct se as [|[] se]; vm_compute; eauto.
  - destruct se as [|[] se]; vm_compute; eauto.
  - run_handler. destruct cv as [[[w h] g]|]; [|vm_compute; eauto].
    destruct (Zoom.getzoomcoords ratio3 w h g) as [[rect|] g']; [|vm_compute; eauto].
    destruct se as [|[] [|[] se]]; vm_compute; eauto.
  - destruct cv as [[[w h] g]|]; vm_compute; eauto.
  - destruct cv as [[[w h] g]|]; vm_compute; eauto.
  - run_handler. destruct cv as [[[w h] g]|]; [|vm_compute; eauto].
    destruct (Zoom.getzoomcoords ratio3 w h g) as [[rect|] g']; vm_compute; eauto.
  - destruct se as [|[] se]; vm_compute; eauto.
  - destruct se as [|[] se]; vm_compute; eauto.
  - destruct k; try (vm_compute; eauto; fail).
    unfold handler, minus. cbn. destruct (Frames.ShutterSpeedFrame.sub _); cbn; eauto.
Qed.

Lemma Zoom_clamp_twice size v :
  0 < size → Zoom.clamp size (Zoom.clamp size v) = Zoom.clamp size v.
Proof. intros. apply clamp_inside, clamp_range. lia. Qed.

Lemma widget_values_in_range (v : Z) :
  (0 <= Frames.BrightnessFrame.add v <= 100 ∧ 0 <= Frames.BrightnessFrame.sub v <= 100) ∧
  (-100 <= Frames.ContrastFrame.add v <= 100 ∧ -100 <= Frames.ContrastFrame.sub v <= 100) ∧
  (-100 <= Frames.SharpnessFrame.add v <= 100 ∧
   -100 <= Frames.SharpnessFrame.sub v <= 100) ∧
  Frames.SHU_MIN <= Frames.ShutterSpeedFrame.add v <= Frames.SHU_MAX ∧
  (∀ r, Frames.ShutterSpeedFrame.sub v = Ok r → Frames.SHU_MIN <= r <= Frames.SHU_MAX).
Proof.
  unfold Frames.BrightnessFrame.add, Frames.BrightnessFrame.sub,
    Frames.ContrastFrame.add, Frames.ContrastFrame.sub,
    Frames.SharpnessFrame.add, Frames.SharpnessFrame.sub,
    Frames.ShutterSpeedFrame.add, Frames.ShutterSpeedFrame.sub,
    Frames.BRI_DELTA, Frames.CON_DELTA, Frames.SHA_DELTA,
    Frames.SHU_MIN, Frames.SHU_MAX, Frames.SHU_DELTA.
  repeat apply conj; [..|intros r];
    repeat (match goal with
            | |- context [Z.leb ?a ?b] => is_var b; destruct (Z.leb_spec a b)
            | |- context [Z.leb ?a ?b] => is_var a; destruct (Z.leb_spec a b)
            | |- context [Z.ltb ?a ?b] => is_var b; destruct (Z.ltb_spec a b)
            | |- context [Z.ltb ?a ?b] => is_var a; destruct (Z.ltb_spec a b)
            end; cbn [andb]);
    try intros [= <-]; lia.
Qed.

Lemma plus_in_range k (c : @settings R) :
  in_range c →
  in_range (set k match k with
                  | Bri => Frames.BrightnessFrame.add (get k c)
                  | Con => Frames.ContrastFrame.add (get k c)
                  | Sha => Frames.SharpnessFrame.add (get k c)
                  | Shu => Frames.ShutterSpeedFrame.add (get k c)
                  end c).
Proof.
  intros (? & ? & ? & ? & ?).
  destruct (widget_values_in_range (get k c)) as ((? & _) & (? & _) & (? & _) & ? & _).
  destruct k; unfold in_range; cbn in *; tauto.
Qed.

Lemma minus_in_range k (c : @settings R) :
  in_range c →
  match k with
  | Bri => in_range (set k (Frames.BrightnessFrame.sub (get k c)) c)
  | Con => in_range (set k (Frames.ContrastFrame.sub (get k c)) c)
  | Sha => in_range (set k (Frames.SharpnessFrame.sub (get k c)) c)
  | Shu => ∀ r, Frames.ShutterSpeedFrame.sub (get k c) = Ok r → in_range (set k r c)
  end.
Proof.
  intros (? & ? & ? & ? & ?).
  destruct (widget_values_in_range (get k c)) as ((_ & ?) & (_ & ?) & (_ & ?) & _ & Hr).
  destruct k; try intros r ?%Hr; unfold in_range; cbn in *; tauto.
Qed.

(** X18. No run of the settings page changes the default settings: the
    variables made from the default section keep the values of the file
    the page was opened on, and so does the default section of the file
    through every save. *)
Theorem defaults_are_never_changed (file : store) (captures : list bool) p :
  reachable ratio3 zero one file captures p →
  defaults p = default file ∧ default (disk p) = default file ∧
  default (json_settings p) = default file.
Proof.
  apply (reachable_invariant
           (λ p, defaults p = default file ∧ default (disk p) = default file ∧
                 default (json_settings p) = default file)); try done.
  - by intros q (? & ? & ?).
  - intros k. by apply triple_change.
  - intros k q Hq. unfold minus.
    by destruct k; cbn; try destruct (Frames.ShutterSpeedFrame.sub _).
  - intros d. by apply triple_change.
Qed.

(** X19. From a settings file whose two sections hold values the widgets
    allow, every run of buttons and drags keeps the custom variables
    within those values, as well as the custom section on disk and the
    settings of every picture taken. *)
Theorem settings_stay_in_range (file : store) (captures : list bool) p :
  in_range (default file) → in_range (custom file) →
  reachable ratio3 zero one file captures p →
  in_range (customs p) ∧ in_range (custom (disk p)) ∧
  ∀ name camera, (name, camera) ∈ taken p → in_range (applied camera).
Proof.
  intros Hdef Hcus Hp.
  enough (in_range (defaults p) ∧ in_range (customs p) ∧ in_range (custom (disk p)) ∧
          ∀ name camera, (name, camera) ∈ taken p → in_range (applied camera))
    as (_ & ? & ? & ?) by done.
  revert Hp.
  apply (reachable_invariant
           (λ p, in_range (defaults p) ∧ in_range (customs p) ∧
                 in_range (custom (disk p)) ∧
                 ∀ name camera, (name, camera) ∈ taken p → in_range (applied camera))).
  - by intros q (? & ? & ? & ?).
  - by intros q (? & ? & ? & ?).
  - by intros q rect (? & ? & ? & ?).
  - intros k. apply triple_change. intros q (? & Hq & ? & ?).
    split; [done|]. split; [|done]. by apply plus_in_range.
  - intros k q (? & Hq & ? & ?). unfold minus.
    pose proof (minus_in_range k _ Hq) as Hk.
    destruct k; cbn in *; try done.
    destruct (Frames.ShutterSpeedFrame.sub _) as [r|e]; cbn; [|done].
    split; [done|]. split; [|done]. by apply Hk.
  - intros d. apply triple_change. intros q (? & Hq & ? & ?).
    split; [done|]. split; [|done].
    destruct Hq as (? & ? & ? & ? & ?). unfold in_range. cbn. eauto 10.
  - done.
  - done.
  - done.
  - done.
  - done.
  - intros q s (? & ? & ? & Htaken). do 3 (split; [done|]).
    intros name camera [Hin|Hin]%elem_of_app; [by eapply Htaken|].
    apply list_elem_of_singleton in Hin as [= -> ->]. done.
  - intros q s (? & ? & Hdisk & Htaken). do 3 (split; [done|]).
    intros name camera [Hin|Hin]%elem_of_app; [by eapply Htaken|].
    apply list_elem_of_singleton in Hin as [= -> ->]. done.
  - cbn. do 3 (split; [done|]). intros name camera Hin. by apply elem_of_nil in Hin.
Qed.

(** X20. Auto Setup copies the defaults into the custom variables at once.
    If the operator then backs out and goes home, the save on the way out
    writes the defaults into the custom section: the custom values of
    before are gone from the variables and from the file. *)
Theorem auto_setup_discards_the_custom_values p :
  let backed_out :=
    (handler ratio3 zero one Home
       (handler ratio3 zero one SettingsBack (handler ratio3 zero one AutoSetup p).2).2).2 in
  customs backed_out = defaults p ∧
  disk backed_out = Store (default (json_settings p)) (defaults p).
Proof. by destruct p. Qed.

(** X21. At most one frame of the page is shown at any time. *)
Theorem one_frame_at_a_time (file : store) (captures : list bool) p :
  reachable ratio3 zero one file captures p →
  packed p = [] ∨ ∃ f, packed p = [f].
Proof.
  intros Hp. induction Hp as [|p p' _ IH Hstep]; [right; by exists FrameMain|].
  destruct Hstep as [a p Hshown]. apply handler_shows.
  destruct IH as [Hnone|[f Hone]].
  - rewrite Hnone in Hshown. by apply elem_of_nil in Hshown.
  - rewrite Hone in Hshown. apply list_elem_of_singleton in Hshown. by rewrite Hone, Hshown.
Qed.

(** X22. Next on the zoom frame hides that frame before anything else.  If
    the handler then raises (one of the two test captures fails), no frame
    is shown and the page offers no action any more. *)
Theorem failed_test_capture_blanks_the_page p :
  packed p = [FrameZoom] →
  succeeded (handler ratio3 zero one ZoomNext p).1 = false →
  packed (handler ratio3 zero one ZoomNext p).2 = [] ∧
  ∀ p', ¬ step ratio3 zero one (handler ratio3 zero one ZoomNext p).2 p'.
Proof.
  intros Hshown Hfailed.
  assert (packed (handler ratio3 zero one ZoomNext p).2 = []) as Hblank.
  { revert Hfailed. destruct p as [d j df cu ua zf pk cv se tk]. cbn in Hshown. subst pk.
    run_handler. destruct cv as [[[w h] g]|]; [|done].
    destruct (Zoom.getzoomcoords ratio3 w h g) as [[rect|] g']; [|done].
    destruct se as [|[] [|[] se]]; vm_compute; done. }
  split; [done|]. intros p' Hstep.
  inversion Hstep as [a q Hoffered]; subst. rewrite Hblank in Hoffered.
  by apply elem_of_nil in Hoffered.
Qed.

(** X23. The handlers that lead to the zoom frame take the background picture
    first.  If that fails, the frame they were clicked on stays, the
    custom variables are as they were, and they have been saved. *)
Theorem failed_background_capture_keeps_the_frame p a :
  a ∈ [SettingsNextZoom; SettingsBackZoom; ConfirmNo; ManualNext] →
  succeeded (handler ratio3 zero one a p).1 = false →
  packed (handler ratio3 zero one a p).2 = packed p ∧
  canvas (handler ratio3 zero one a p).2 = canvas p ∧
  customs (handler ratio3 zero one a p).2 = customs p ∧
  custom (disk (handler ratio3 zero one a p).2) = customs p.
Proof.
  intros Ha. destruct p as [d j df cu ua zf pk cv se tk].
  repeat (apply elem_of_cons in Ha as [->|Ha]); [..|by apply elem_of_nil in Ha];
    run_handler; by destruct se as [|[] se].
Qed.

(** X24. With both test captures succeeding, Next on the zoom frame takes the
    two test pictures with the rectangle of the drag as zoom and the other
    custom values unchanged, and saves exactly that; Yes on the
    confirmation then stores the same rectangle in the zoom variable. *)
Theorem confirmed_zoom_is_the_tested_one p (w h : Z) (g : Zoom.drag) rest :
  canvas p = Some (w, h, g) → 0 < w → 0 < h → sensor p = true :: true :: rest →
  ∃ rect p1 p2,
    (Zoom.getzoomcoords ratio3 w h g).1 = Some rect ∧
    handler ratio3 zero one ZoomNext p = (Done (), p1) ∧
    handler ratio3 zero one ConfirmYes p1 = (Done (), p2) ∧
    taken p1 = taken p ++
      [("zoom_test.gif", Config (set_zoom rect (customs p)) (640, 368) "auto");
       ("zoom_test.gif", Config (set_zoom rect (customs p)) (640, 368) "auto")] ∧
    custom (disk p1) = set_zoom rect (customs p) ∧
    customs p2 = set_zoom rect (customs p) ∧
    zoom_finished p2 = true.
Proof.
  intros Hcanvas Hw Hh Hsensor.
  destruct p as [d j df cu ua zf pk cv se tk]. cbn in Hcanvas, Hsensor. subst cv se.
  assert ((w =? 0) || (h =? 0) = false) as Hsize.
  { apply orb_false_iff. split; apply Z.eqb_neq; lia. }
  eexists _, _, _. split.
  { rewrite getzoomcoords_clamp. cbn zeta. by rewrite Hsize. }
  split.
  { run_handler. rewrite getzoomcoords_clamp. cbn zeta. rewrite Hsize. cbn. reflexivity. }
  split.
  { run_handler. rewrite getzoomcoords_clamp. cbn zeta. rewrite Hsize. cbn.
    rewrite !(Zoom_clamp_twice w), !(Zoom_clamp_twice h) by lia. reflexivity. }
  by rewrite <- app_assoc.
Qed.

(** X25. No on the confirmation does not bring the earlier zoom back: the
    rectangle that was tested stays in the zoom variable and in the custom
    section on disk, whether or not the new background picture can be
    taken. *)
Theorem rejected_zoom_stays_saved p (w h : Z) (g : Zoom.drag) rest :
  canvas p = Some (w, h, g) → 0 < w → 0 < h → sensor p = true :: true :: rest →
  ∃ rect p1,
    (Zoom.getzoomcoords ratio3 w h g).1 = Some rect ∧
    handler ratio3 zero one ZoomNext p = (Done (), p1) ∧
    zoom (customs (handler ratio3 zero one ConfirmNo p1).2) = rect ∧
    zoom (custom (disk (handler ratio3 zero one ConfirmNo p1).2)) = rect.
Proof.
  intros Hcanvas Hw Hh Hsensor.
  destruct p as [d j df cu ua zf pk cv se tk]. cbn in Hcanvas, Hsensor. subst cv se.
  assert ((w =? 0) || (h =? 0) = false) as Hsize.
  { apply orb_false_iff. split; apply Z.eqb_neq; lia. }
  eexists _, _. split.
  { rewrite getzoomcoords_clamp. cbn zeta. by rewrite Hsize. }
  split.
  { run_handler. rewrite getzoomcoords_clamp. cbn zeta. rewrite Hsize. cbn. reflexivity. }
  run_handler. by destruct rest as [|[] rest].
Qed.

End SettingsPage.

Lemma reachable_press a captures (p : @Settings.page Z) :
  Settings.reachable MoreScenes.thousandths 0 1000 MoreScenes.shipped captures p →
  Settings.offered_by a ∈ Settings.packed p →
  Settings.reachable MoreScenes.thousandths 0 1000 MoreScenes.shipped captures
    (MoreScenes.press a p).
Proof.
  intros Hp Ha. eapply Settings.reachable_step; [exact Hp|].
  by apply Settings.step_action.
Defined.

Ltac replay :=
  unfold MoreScenes.play, MoreScenes.to_finish, MoreScenes.to_zoom; cbn [foldl app];
  repeat (apply reachable_press; [|vm_compute; constructor]);
  apply Settings.reachable_init.

Lemma to_finish_reachable :
  Settings.reachable MoreScenes.thousandths 0 1000 MoreScenes.shipped [true; true; true]
    (MoreScenes.play MoreScenes.to_finish [true; true; true]).
Proof. replay. Defined.

Lemma defaults_are_never_changed_by_a_manual_setup :
  Settings.reachable MoreScenes.thousandths 0 1000 MoreScenes.shipped [true; true; true]
    (MoreScenes.play MoreScenes.to_finish [true; true; true]) ∧
  Settings.defaults (MoreScenes.play MoreScenes.to_finish [true; true; true])
  = Settings.default MoreScenes.shipped ∧
  Settings.default (Settings.disk (MoreScenes.play MoreScenes.to_finish [true; true; true]))
  = Settings.default MoreScenes.shipped ∧
  Settings.default
    (Settings.json_settings (MoreScenes.play MoreScenes.to_finish [true; true; true]))
  = Settings.default MoreScenes.shipped.
Proof.
  split; [exact to_finish_reachable|].
  exact (defaults_are_never_changed MoreScenes.thousandths 0 1000 MoreScenes.shipped
           [true; true; true] _ to_finish_reachable).
Defined.

Lemma shipped_in_range :
  Settings.in_range (Settings.default MoreScenes.shipped) ∧
  Settings.in_range (Settings.custom MoreScenes.shipped).
Proof.
  unfold Settings.in_range, Frames.SHU_MIN, Frames.SHU_MAX. cbn.
  repeat apply conj; try lia; [by exists Settings.Deg0|by exists Settings.Deg90].
Defined.

Lemma settings_stay_in_range_over_a_manual_setup :
  Settings.in_range (Settings.default MoreScenes.shipped) ∧
  Settings.in_range (Settings.custom MoreScenes.shipped) ∧
  Settings.reachable MoreScenes.thousandths 0 1000 MoreScenes.shipped [true; true; true]
    (MoreScenes.play MoreScenes.to_finish [true; true; true]) ∧
  Settings.in_range
    (Settings.customs (MoreScenes.play MoreScenes.to_finish [true; true; true])) ∧
  Settings.in_range
    (Settings.custom
       (Settings.disk (MoreScenes.play MoreScenes.to_finish [true; true; true]))).
Proof.
  split; [apply shipped_in_range|]. split; [apply shipped_in_range|].
  split; [exact to_finish_reachable|].
  destruct (settings_stay_in_range MoreScenes.thousandths 0 1000 MoreScenes.shipped
              [true; true; true] _ (proj1 shipped_in_range) (proj2 shipped_in_range)
              to_finish_reachable) as (Hcustoms & Hdisk & _).
  split; [exact Hcustoms|exact Hdisk].
Defined.

Lemma one_frame_at_a_time_over_a_manual_setup :
  Settings.reachable MoreScenes.thousandths 0 1000 MoreScenes.shipped [true; true; true]
    (MoreScenes.play MoreScenes.to_finish [true; true; true]) ∧
  (Settings.packed (MoreScenes.play MoreScenes.to_finish [true; true; true]) = [] ∨
   ∃ f, Settings.packed (MoreScenes.play MoreScenes.to_finish [true; true; true]) = [f]).
Proof.
  split; [exact to_finish_reachable|].
  exact (one_frame_at_a_time MoreScenes.thousandths 0 1000 MoreScenes.shipped
           [true; true; true] _ to_finish_reachable).
Defined.

Lemma failed_test_capture_blanks_the_page_at_the_second_picture :
  Settings.packed (MoreScenes.play MoreScenes.to_zoom [true; true; false])
  = [Settings.FrameZoom] ∧
  Settings.succeeded
    (Settings.handler MoreScenes.thousandths 0 1000 Settings.ZoomNext
       (MoreScenes.play MoreScenes.to_zoom [true; true; false])).1 = false ∧
  Settings.packed
    (Settings.handler MoreScenes.thousandths 0 1000 Settings.ZoomNext
       (MoreScenes.play MoreScenes.to_zoom [true; true; false])).2 = [].
Proof.
  split; [reflexivity|]. split; [reflexivity|].
  apply (failed_test_capture_blanks_the_page MoreScenes.thousandths 0 1000
           (MoreScenes.play MoreScenes.to_zoom [true; true; false]));
    reflexivity.
Defined.

Lemma failed_background_capture_keeps_the_frame_on_manual :
  Settings.ManualNext ∈ [Settings.SettingsNextZoom; Settings.SettingsBackZoom;
                         Settings.ConfirmNo; Settings.ManualNext] ∧
  Settings.succeeded
    (Settings.handler MoreScenes.thousandths 0 1000 Settings.ManualNext
       (MoreScenes.play [Settings.ManualSetup; Settings.Plus Settings.Bri] [false])).1
  = false ∧
  Settings.packed
    (Settings.handler MoreScenes.thousandths 0 1000 Settings.ManualNext
       (MoreScenes.play [Settings.ManualSetup; Settings.Plus Settings.Bri] [false])).2
  = [Settings.FrameManual].
Proof.
  assert (Settings.ManualNext ∈ [Settings.SettingsNextZoom; Settings.SettingsBackZoom;
                                 Settings.ConfirmNo; Settings.ManualNext]) as Hin.
  { do 3 apply list_elem_of_further. apply list_elem_of_here. }
  split; [exact Hin|]. split; [reflexivity|].
  apply (failed_background_capture_keeps_the_frame MoreScenes.thousandths 0 1000
           (MoreScenes.play [Settings.ManualSetup; Settings.Plus Settings.Bri] [false])
           Settings.ManualNext Hin).
  reflexivity.
Defined.

Lemma confirmed_zoom_is_the_tested_one_after_a_drag :
  Settings.canvas (MoreScenes.play MoreScenes.to_zoom [true; true; true])
  = Some (400, 250, Zoom.Drag 300 200 100 50) ∧
  0 < 400 ∧ 0 < 250 ∧
  Settings.sensor (MoreScenes.play MoreScenes.to_zoom [true; true; true]) = [true; true] ∧
  ∃ rect p1 p2,
    (Zoom.getzoomcoords MoreScenes.thousandths 400 250 (Zoom.Drag 300 200 100 50)).1
    = Some rect ∧
    Settings.handler MoreScenes.thousandths 0 1000 Settings.ZoomNext
      (MoreScenes.play MoreScenes.to_zoom [true; true; true]) = (Settings.Done (), p1) ∧
    Settings.handler MoreScenes.thousandths 0 1000 Settings.ConfirmYes p1
    = (Settings.Done (), p2) ∧
    Settings.customs p2
    = Settings.set_zoom rect
        (Settings.customs (MoreScenes.play MoreScenes.to_zoom [true; true; true])).
Proof.
  split; [reflexivity|]. split; [lia|]. split; [lia|]. split; [reflexivity|].
  destruct (confirmed_zoom_is_the_tested_one MoreScenes.thousandths 0 1000
              (MoreScenes.play MoreScenes.to_zoom [true; true; true])
              400 250 (Zoom.Drag 300 200 100 50) [])
    as (rect & p1 & p2 & Hrect & Hnext & Hyes & _ & _ & Hzoom & _);
    [reflexivity|lia|lia|reflexivity|].
  exists rect, p1, p2. by repeat split.
Defined.

Lemma rejected_zoom_stays_saved_after_a_drag :
  Settings.canvas (MoreScenes.play MoreScenes.to_zoom [true; true; true; false])
  = Some (400, 250, Zoom.Drag 300 200 100 50) ∧
  0 < 400 ∧ 0 < 250 ∧
  Settings.sensor (MoreScenes.play MoreScenes.to_zoom [true; true; true; false])
  = [true; true; false] ∧
  ∃ rect p1,
    (Zoom.getzoomcoords MoreScenes.thousandths 400 250 (Zoom.Drag 300 200 100 50)).1
    = Some rect ∧
    Settings.handler MoreScenes.thousandths 0 1000 Settings.ZoomNext
      (MoreScenes.play MoreScenes.to_zoom [true; true; true; false])
    = (Settings.Done (), p1) ∧
    Settings.zoom
      (Settings.custom
         (Settings.disk
            (Settings.handler MoreScenes.thousandths 0 1000 Settings.ConfirmNo p1).2))
    = rect.
Proof.
  split; [reflexivity|]. split; [lia|]. split; [lia|]. split; [reflexivity|].
  destruct (rejected_zoom_stays_saved MoreScenes.thousandths 0 1000
              (MoreScenes.play MoreScenes.to_zoom [true; true; true; false])
              400 250 (Zoom.Drag 300 200 100 50) [false])
    as (rect & p1 & Hrect & Hnext & _ & Hdisk);
    [reflexivity|lia|lia|reflexivity|].
  exists rect, p1. by repeat split.
Defined.
